(** * Building-vector-db: the ingestion pipeline, embedded in Rocq

    A shallow embedding of [src/flow_manager.py], [src/vector_db_service.py],
    [src/agent.py] and [src/models.py].

    - Python [str] values are [string]s; [int] is [Z]; [bytes] is a list of
      [byte]s; [Optional[str]] is [option string].
    - [DocumentChunk] instances are mutable objects that the orchestrator and
      the persistence service share, so they live in a store
      ([gmap loc DocumentChunk]) and lists hold references to them.
    - The three external collaborators (bucket, chunking agent, vector store)
      are an interface over an abstract [World]; every call may fail with an
      exception of the collaborator's choosing and is recorded in a trace.
    - Logger calls do not influence any value computed here and are left out.
    - [setup] has run: the three clients exist. Configuration, credentials
      and log formatting are outside the model.
*)

From Stdlib Require Import ZArith Ascii.
From stdpp Require Import base gmap strings list pretty.

Local Open Scope Z_scope.

(** ** Python's string primitives used by the pipeline *)

Module PyStr.

(** [str.lower] on the ASCII range: [A]-[Z] move to [a]-[z], every other
    character is kept. *)
Definition lower_char (c : ascii) : ascii :=
  let n := N_of_ascii c in
  if ((65 <=? n) && (n <=? 90))%N then ascii_of_N (n + 32) else c.

Fixpoint lower (s : string) : string :=
  match s with
  | EmptyString => EmptyString
  | String c s' => String (lower_char c) (lower s')
  end.

(** [s.endswith(suffix)]: [suffix] is a tail of [s]. *)
Fixpoint endswith (s suffix : string) : bool :=
  if decide (s = suffix) then true
  else match s with
       | EmptyString => false
       | String _ s' => endswith s' suffix
       end.

(** [s.split(sep)] for a one-character separator: the segments between the
    occurrences of [sep], empty segments included; never an empty list. *)
Fixpoint split (sep : ascii) (s : string) : list string :=
  match s with
  | EmptyString => [EmptyString]
  | String c s' =>
      if decide (c = sep) then EmptyString :: split sep s'
      else match split sep s' with
           | seg :: segs => String c seg :: segs
           | [] => [String c EmptyString]
           end
  end.

(** [s.replace(old, new)] for one-character [old] and [new]. *)
Fixpoint replace_char (old new : ascii) (s : string) : string :=
  match s with
  | EmptyString => EmptyString
  | String c s' =>
      String (if decide (c = old) then new else c) (replace_char old new s')
  end.

(** [c in s] for a character [c]. *)
Fixpoint contains (c : ascii) (s : string) : bool :=
  match s with
  | EmptyString => false
  | String c' s' => bool_decide (c' = c) || contains c s'
  end.

(** Character-wise image of a string. *)
Fixpoint map_chars (f : ascii → ascii) (s : string) : string :=
  match s with
  | EmptyString => EmptyString
  | String c s' => String (f c) (map_chars f s')
  end.

End PyStr.

(** ** Data model ([src/models.py]) *)

Definition loc := positive.

Record DocumentChunk := mkChunk {
  chunk_id : Z;
  document_date : option string;
  section_type : string;
  content : string;
  source_file : option string
}.

(** [chunks] holds references: the chunk objects themselves are shared with
    whoever else holds them. *)
Record PDFProcessingResult := mkResult {
  file_name : string;
  chunks : list loc
}.

Definition total_chunks (r : PDFProcessingResult) : nat := length (chunks r).

(** ** Values exchanged with the collaborators *)

(** A metadata value: [None], a [str] or an [int]. *)
Inductive Value :=
| VNone
| VStr (s : string)
| VInt (z : Z).

Definition of_optional (o : option string) : Value :=
  match o with
  | None => VNone
  | Some s => VStr s
  end.

(** LangChain's [Document]: text plus a metadata dictionary. *)
Record Document := mkDocument {
  page_content : string;
  metadata : gmap string Value
}.

(** What is sent to the chunking agent. *)
Inductive UserContent :=
| Text (s : string)
| BinaryContent (data : list Byte.byte) (media_type : string).

(** A raised exception: its class and its message. *)
Record exn := mkExn {
  exn_class : string;
  exn_msg : string
}.

(** One call made to a collaborator. *)
Inductive Call :=
| CallListBlobs (bucket prefix : string)
| CallDownload (bucket blob : string)
| CallAgentRun (prompt : list UserContent)
| CallAddDocuments (documents : list Document) (ids : list string).

(** The collaborators: each answers from the current world, either with an
    exception or with a value, and moves the world on. *)
Class Collaborators (World : Type) := {
  list_blobs : string → string → World → (exn + list string) * World;
  download_as_bytes : string → string → World → (exn + list Byte.byte) * World;
  agent_run : list UserContent → World → (exn + list DocumentChunk) * World;
  add_documents : list Document → list string → World → (exn + unit) * World
}.

(** ** Program states and the monad of the embedding *)

Record State (World : Type) := mkState {
  heap : gmap loc DocumentChunk;
  world : World;
  trace : list Call
}.
Arguments mkState {World} _ _ _.
Arguments heap {World} _.
Arguments world {World} _.
Arguments trace {World} _.

(** How a computation ends: with a value, with a Python exception, or (only
    in the model) on a reference that denotes no object. *)
Inductive outcome (A : Type) :=
| Return (a : A)
| Raise (e : exn)
| Dangling.
Arguments Return {A} _.
Arguments Raise {A} _.
Arguments Dangling {A}.

Definition M (World : Type) (A : Type) : Type :=
  State World → outcome A * State World.

Global Instance M_ret {World} : MRet (M World) :=
  λ A a s, (Return a, s).

Global Instance M_bind {World} : MBind (M World) :=
  λ A B f m s,
    match m s with
    | (Return a, s') => f a s'
    | (Raise e, s') => (Raise e, s')
    | (Dangling, s') => (Dangling, s')
    end.

Section Pipeline.
Context {World : Type} `{!Collaborators World}.

Local Abbreviation M := (M World).
Local Abbreviation State := (State World).

Definition raise {A} (e : exn) : M A := λ s, (Raise e, s).

(** Attribute reads go through the reference. *)
Definition deref (l : loc) : M DocumentChunk :=
  λ s, match heap s !! l with
       | Some c => (Return c, s)
       | None => (Dangling, s)
       end.

(** [chunk.source_file = v] *)
Definition set_source_file (l : loc) (v : option string) : M unit :=
  λ s, match heap s !! l with
       | Some c =>
           (Return (),
            mkState (<[l := mkChunk (chunk_id c) (document_date c)
                                    (section_type c) (content c) v]> (heap s))
                    (world s) (trace s))
       | None => (Dangling, s)
       end.

(** A fresh object. *)
Definition alloc (c : DocumentChunk) : M loc :=
  λ s, let l := fresh (dom (heap s)) in
       (Return l, mkState (<[l := c]> (heap s)) (world s) (trace s)).

(** A call to a collaborator: recorded, answered from the world. *)
Definition external {A} (c : Call) (f : World → (exn + A) * World) : M A :=
  λ s, let '(r, w) := f (world s) in
       let s' := mkState (heap s) w (trace s ++ [c]) in
       match r with
       | inl e => (Raise e, s')
       | inr a => (Return a, s')
       end.

(** *** [src/agent.py] *)

(** [PDFAgent.process_pdf]: the agent's output is a list of new chunk
    objects. *)
Definition process_pdf (pdf_content : list Byte.byte) (file_name : string)
  : M (list loc) :=
  let prompt :=
    [Text ("Process this PDF document: " +:+ file_name);
     BinaryContent pdf_content "application/pdf"] in
  output ← external (CallAgentRun prompt) (agent_run prompt);
  mapM alloc output.

(** *** [src/vector_db_service.py] *)

(** Truthiness of an [Optional[str]]: [None] and [""] are falsy. *)
Definition truthy (o : option string) : bool :=
  match o with
  | None => false
  | Some EmptyString => false
  | Some (String _ _) => true
  end.

(** [f"{file_name}_{chunk_id}".replace("/", "_").replace(".", "_")] *)
Definition doc_id (file_name : string) (chunk_id : Z) : string :=
  PyStr.replace_char "." "_"
    (PyStr.replace_char "/" "_" (file_name +:+ "_" +:+ pretty chunk_id)).

Definition chunk_metadata (c : DocumentChunk) : gmap string Value :=
  <["source_file" := of_optional (source_file c)]>
    (<["chunk_id" := VInt (chunk_id c)]>
       (<["document_date" := of_optional (document_date c)]>
          (<["section_type" := VStr (section_type c)]> ∅))).

Definition chunk_document (c : DocumentChunk) : Document :=
  mkDocument (content c) (chunk_metadata c).

(** The body of the [for chunk in chunks] loop, with the two accumulators
    [documents] and [ids]. *)
Fixpoint upload_loop (chunks : list loc) (file_name : string)
    (documents : list Document) (ids : list string)
  : M (list Document * list string) :=
  match chunks with
  | [] => mret (documents, ids)
  | chunk :: rest =>
      c ← deref chunk;
      _ ← (if negb (truthy (source_file c))
           then set_source_file chunk (Some file_name)
           else mret ());
      c ← deref chunk;
      let ids := ids ++ [doc_id file_name (chunk_id c)] in
      let documents := documents ++ [chunk_document c] in
      upload_loop rest file_name documents ids
  end.

(** [VectorDBService.upload_chunks] *)
Definition upload_chunks (chunks : list loc) (file_name : string) : M unit :=
  '(documents, ids) ← upload_loop chunks file_name [] [];
  external (CallAddDocuments documents ids) (add_documents documents ids).

(** *** [src/flow_manager.py] *)

Record FlowManager := mkFlowManager {
  bucket_name : string;
  folder_path : string
}.

(** [FlowManager._list_pdfs] *)
Definition _list_pdfs (self : FlowManager) : M (list string) :=
  blobs ← external (CallListBlobs (bucket_name self) (folder_path self))
                   (list_blobs (bucket_name self) (folder_path self));
  let pdf_files :=
    filter (λ name, PyStr.endswith (PyStr.lower name) ".pdf" = true) blobs in
  mret pdf_files.

(** [FlowManager._download_pdf] *)
Definition _download_pdf (self : FlowManager) (blob_name : string)
  : M (list Byte.byte) :=
  external (CallDownload (bucket_name self) blob_name)
           (download_as_bytes (bucket_name self) blob_name).

(** [l[-1]] *)
Definition getitem_last {A} (l : list A) : M A :=
  match last l with
  | Some x => mret x
  | None => raise (mkExn "IndexError" "list index out of range")
  end.

(** [FlowManager._process_single_pdf] *)
Definition _process_single_pdf (self : FlowManager) (blob_name : string)
  : M PDFProcessingResult :=
  file_name ← getitem_last (PyStr.split "/" blob_name);
  pdf_bytes ← _download_pdf self blob_name;
  extracted ← process_pdf pdf_bytes file_name;
  let result := mkResult file_name extracted in
  _ ← upload_chunks (chunks result) file_name;
  mret result.

(** The [for i, blob_name in enumerate(pdf_files, 1)] loop with its
    accumulator [results]. *)
Fixpoint process_loop (self : FlowManager) (pdf_files : list string)
    (results : list PDFProcessingResult) : M (list PDFProcessingResult) :=
  match pdf_files with
  | [] => mret results
  | blob_name :: rest =>
      result ← _process_single_pdf self blob_name;
      process_loop self rest (results ++ [result])
  end.

(** [FlowManager.process_all_pdfs] *)
Definition process_all_pdfs (self : FlowManager)
  : M (list PDFProcessingResult) :=
  pdf_files ← _list_pdfs self;
  if bool_decide (pdf_files = []) then mret []
  else process_loop self pdf_files [].

End Pipeline.

(** ** Reference notions the properties are stated against *)

(** [name] ends in [.pdf], whatever the case of the three letters. *)
Definition ends_in_pdf (name : string) : Prop :=
  ∃ stem p d f,
    name = stem +:+ String "." (String p (String d (String f EmptyString)))
    ∧ (p = "p" ∨ p = "P")%char
    ∧ (d = "d" ∨ d = "D")%char
    ∧ (f = "f" ∨ f = "F")%char.

(** [found] is [listing] restricted to the names ending in [.pdf], every
    occurrence kept and in the order of the listing. *)
Inductive discovered : list string → list string → Prop :=
| discovered_nil : discovered [] []
| discovered_keep name listing found :
    ends_in_pdf name → discovered listing found →
    discovered (name :: listing) (name :: found)
| discovered_skip name listing found :
    ¬ ends_in_pdf name → discovered listing found →
    discovered (name :: listing) found.

(** [seg] is the last path segment of [path]: it holds no ['/'] and is what
    follows the last ['/'] of [path] (all of [path] when there is none). *)
Definition is_last_segment (path seg : string) : Prop :=
  PyStr.contains "/" seg = false
  ∧ (path = seg ∨ ∃ dir, path = dir +:+ String "/" seg).

(** Replacing ['/'] and ['.'] by ['_'] in one pass. *)
Definition flatten_char (c : ascii) : ascii :=
  if decide (c = "/"%char ∨ c = "."%char) then "_"%char else c.

Definition flatten (s : string) : string := PyStr.map_chars flatten_char s.

(** The [source_file] persistence leaves behind: a non-empty one is kept,
    [None] and [""] give way to the display name. *)
Definition resolved_source (file_name : string) (o : option string)
  : option string :=
  match o with
  | Some (String a v) => Some (String a v)
  | _ => Some file_name
  end.

(** Two chunks that agree on every field but [source_file]. *)
Definition same_but_source_file (c c' : DocumentChunk) : Prop :=
  chunk_id c' = chunk_id c
  ∧ document_date c' = document_date c
  ∧ section_type c' = section_type c
  ∧ content c' = content c.

(** Every reference of the list denotes an object of the store. *)
Definition allocated (h : gmap loc DocumentChunk) (refs : list loc) : Prop :=
  Forall (λ l, is_Some (h !! l)) refs.

(** [sep.join(segs)], the inverse of [split]. *)
Fixpoint join (sep : ascii) (segs : list string) : string :=
  match segs with
  | [] => ""
  | seg :: rest =>
      match rest with
      | [] => seg
      | _ :: _ => seg +:+ String sep (join sep rest)
      end
  end.

(** Digits and the minus sign. *)
Definition numeric (c : ascii) : bool :=
  bool_decide (c ∈ ["0"; "1"; "2"; "3"; "4"; "5"; "6"; "7"; "8"; "9"; "-"]%char).

Fixpoint all_chars (P : ascii → bool) (s : string) : bool :=
  match s with
  | EmptyString => true
  | String c s' => P c && all_chars P s'
  end.

(** The chunk as persistence leaves it: only [source_file] is resolved. *)
Definition backfill (file_name : string) (c : DocumentChunk) : DocumentChunk :=
  mkChunk (chunk_id c) (document_date c) (section_type c) (content c)
          (resolved_source file_name (source_file c)).

(** The second half of the backfill rule read literally: whatever value a
    chunk's [source_file] was set to, it is still there after the upload. *)
Definition preset_source_file_kept {World} `{!Collaborators World}
    (s : State World) (cs : list loc) (fn : string) : Prop :=
  ∀ l c v, l ∈ cs → heap s !! l = Some c → source_file c = Some v →
    ∃ c', heap (upload_chunks cs fn s).2 !! l = Some c'
          ∧ source_file c' = Some v.

(** Distinct inputs always give distinct keys. *)
Definition doc_id_injective : Prop :=
  ∀ name1 i1 name2 i2,
    (name1, i1) ≠ (name2, i2) → doc_id name1 i1 ≠ doc_id name2 i2.

(** The four metadata keys. *)
Definition metadata_keys : gset string :=
  list_to_set ["source_file"; "chunk_id"; "document_date"; "section_type"].

(** ** Runs of the orchestrator, as relations *)

Section Runs.
Context {World : Type} `{!Collaborators World}.

(** Every document of the list is processed successfully, one after the
    other: the results and the state reached. *)
Inductive all_succeed (self : FlowManager)
  : list string → State World → list PDFProcessingResult → State World → Prop :=
| all_succeed_nil s : all_succeed self [] s [] s
| all_succeed_cons blob_name rest s result s1 results s2 :
    _process_single_pdf self blob_name s = (Return result, s1) →
    all_succeed self rest s1 results s2 →
    all_succeed self (blob_name :: rest) s (result :: results) s2.

(** Processing [blob_name] fails at one of its three stages with [e],
    leaving the state [s']. *)
Inductive stage_failure (self : FlowManager) (blob_name : string)
    (s : State World) (e : exn) (s' : State World) : Prop :=
| acquisition_fails :
    _download_pdf self blob_name s = (Raise e, s') →
    stage_failure self blob_name s e s'
| chunking_fails name pdf_bytes s1 :
    last (PyStr.split "/" blob_name) = Some name →
    _download_pdf self blob_name s = (Return pdf_bytes, s1) →
    process_pdf pdf_bytes name s1 = (Raise e, s') →
    stage_failure self blob_name s e s'
| persistence_fails name pdf_bytes s1 extracted s2 :
    last (PyStr.split "/" blob_name) = Some name →
    _download_pdf self blob_name s = (Return pdf_bytes, s1) →
    process_pdf pdf_bytes name s1 = (Return extracted, s2) →
    upload_chunks extracted name s2 = (Raise e, s') →
    stage_failure self blob_name s e s'.

(** The listing call fails, and [_list_pdfs] fails with [DiscoveryError]. *)
Definition listing_failure_typed (self : FlowManager) (s : State World)
  : Prop :=
  ∀ e w',
    list_blobs (bucket_name self) (folder_path self) (world s) = (inl e, w') →
    ∃ e' s', _list_pdfs self s = (Raise e', s')
             ∧ exn_class e' = "DiscoveryError".

(** [e] is an exception that one of the collaborators answers with. *)
Definition collaborator_raised (e : exn) : Prop :=
  (∃ bucket prefix w, (list_blobs bucket prefix w).1 = inl e)
  ∨ (∃ bucket blob w, (download_as_bytes bucket blob w).1 = inl e)
  ∨ (∃ prompt w, (agent_run prompt w).1 = inl e)
  ∨ (∃ documents ids w, (add_documents documents ids w).1 = inl e).

End Runs.

(** What [process_pdf] sends to the agent for a document. *)
Definition agent_prompt (name : string) (pdf_bytes : list Byte.byte)
  : list UserContent :=
  [Text ("Process this PDF document: " +:+ name);
   BinaryContent pdf_bytes "application/pdf"].

(** The three calls that one successfully processed document costs. *)
Definition document_calls (self : FlowManager) (blob_name name : string)
    (pdf_bytes : list Byte.byte) (documents : list Document)
    (ids : list string) : list Call :=
  [CallDownload (bucket_name self) blob_name;
   CallAgentRun (agent_prompt name pdf_bytes);
   CallAddDocuments documents ids].

(** The calls of [calls] are those of one document: a download of
    [blob_name], the agent run on what was downloaded, and one upsert. *)
Definition calls_of_document (self : FlowManager) (blob_name : string)
    (calls : list Call) : Prop :=
  ∃ name pdf_bytes documents ids,
    last (PyStr.split "/" blob_name) = Some name
    ∧ calls = document_calls self blob_name name pdf_bytes documents ids.

(** In the store [h], the references at different positions of [refs] carry
    different chunk ids. *)
Definition distinct_chunk_ids (h : gmap loc DocumentChunk) (refs : list loc)
  : Prop :=
  ∀ i j li lj ci cj,
    refs !! i = Some li → refs !! j = Some lj →
    h !! li = Some ci → h !! lj = Some cj →
    chunk_id ci = chunk_id cj → i = j.

(** In the store [h], every chunk of the result carries a non-empty
    [source_file]. *)
Definition tagged_result (h : gmap loc DocumentChunk) (r : PDFProcessingResult)
  : Prop :=
  Forall (λ l, ∃ c, h !! l = Some c ∧ truthy (source_file c) = true) (chunks r).


(** ** Scripted collaborators, for running the pipeline on examples *)

Module Scenario.

(** What each collaborator answers; the world counts the calls answered. *)
Record Script := mkScript {
  on_list : exn + list string;
  on_download : string → exn + list Byte.byte;
  on_agent : list UserContent → exn + list DocumentChunk;
  on_upsert : list string → exn + unit
}.

Definition scripted (sc : Script) : Collaborators nat := {|
  list_blobs _ _ w := (on_list sc, S w);
  download_as_bytes _ blob w := (on_download sc blob, S w);
  agent_run prompt w := (on_agent sc prompt, S w);
  add_documents _ ids w := (on_upsert sc ids, S w)
|}.

Definition pdf_bytes : list Byte.byte := [Byte.x25; Byte.x50; Byte.x44; Byte.x46].

Definition report_chunks : list DocumentChunk :=
  [mkChunk 0 (Some "2024-01-05") "Header and Agenda" "Agenda" None;
   mkChunk 1 (Some "2024-01-05") "Topic Discussion" "Budget" None].

Definition minutes_chunks : list DocumentChunk :=
  [mkChunk 0 None "Closing and Decisions" "Decisions" (Some "minutes.PDF")].

Definition asks_for (name : string) (prompt : list UserContent) : bool :=
  match prompt with
  | Text t :: _ => bool_decide (t = "Process this PDF document: " +:+ name)
  | _ => false
  end.

(** The scenario of the specification: three blobs, two of them PDFs. *)
Definition happy : Script := {|
  on_list := inr ["a/report.pdf"; "a/notes.txt"; "a/minutes.PDF"];
  on_download _ := inr pdf_bytes;
  on_agent prompt :=
    inr (if asks_for "report.pdf" prompt then report_chunks else minutes_chunks);
  on_upsert _ := inr ()
|}.

(** The bucket refuses the listing. *)
Definition forbidden : exn := mkExn "Forbidden" "403 GET storage objects".

Definition denied : Script := {|
  on_list := inl forbidden;
  on_download := on_download happy;
  on_agent := on_agent happy;
  on_upsert := on_upsert happy
|}.

(** Three PDFs; the agent fails on the second one. *)
Definition bad_output : exn :=
  mkExn "UnexpectedModelBehavior" "Exceeded maximum retries for output validation".

Definition second_fails : Script := {|
  on_list := inr ["a/one.pdf"; "a/two.pdf"; "a/three.pdf"];
  on_download _ := inr pdf_bytes;
  on_agent prompt :=
    if asks_for "two.pdf" prompt then inl bad_output else inr report_chunks;
  on_upsert _ := inr ()
|}.

Definition manager : @FlowManager := mkFlowManager "protocols-bucket" "a/".

Definition start : State nat := mkState ∅ 0%nat [].

(** A store with an untagged chunk, a tagged chunk, and a chunk tagged with
    the empty string. *)
Definition untagged : DocumentChunk :=
  mkChunk 0 (Some "2024-01-05") "Header and Agenda" "Agenda" None.
Definition tagged : DocumentChunk :=
  mkChunk 1 None "Topic Discussion" "Budget" (Some "minutes.PDF").
Definition empty_tag : DocumentChunk :=
  mkChunk 2 None "Closing and Decisions" "Decisions" (Some "").

Definition stored : State nat :=
  mkState (<[1%positive := untagged]>
             (<[2%positive := tagged]> (<[3%positive := empty_tag]> ∅)))
          0%nat [].

Definition refs : list loc := [1; 2; 3; 1]%positive.

(** The bucket lists no PDF. *)
Definition no_pdfs : Script := {|
  on_list := inr ["a/notes.txt"; "a/readme.md"; "a/pdf"];
  on_download := on_download happy;
  on_agent := on_agent happy;
  on_upsert := on_upsert happy
|}.

(** The download is refused. *)
Definition not_found : exn := mkExn "NotFound" "404 No such object".

Definition download_fails : Script := {|
  on_list := on_list happy;
  on_download _ := inl not_found;
  on_agent := on_agent happy;
  on_upsert := on_upsert happy
|}.

(** The vector store refuses the upsert. *)
Definition unavailable : exn := mkExn "ServiceUnavailable" "503 try again".

Definition upsert_fails : Script := {|
  on_list := on_list happy;
  on_download := on_download happy;
  on_agent := on_agent happy;
  on_upsert _ := inl unavailable
|}.

(** The agent finds no chunk in any document. *)
Definition no_chunks : Script := {|
  on_list := on_list happy;
  on_download := on_download happy;
  on_agent _ := inr [];
  on_upsert := on_upsert happy
|}.

(** The first document of the scenario, processed on its own. *)
Definition report_result : PDFProcessingResult :=
  mkResult "report.pdf" [1; 2]%positive.

Definition report_run : outcome PDFProcessingResult * State nat :=
  @_process_single_pdf nat (scripted happy) manager "a/report.pdf" start.

(** The whole scenario. *)
Definition happy_results : list PDFProcessingResult :=
  [report_result; mkResult "minutes.PDF" [3%positive]].

Definition happy_run : outcome (list PDFProcessingResult) * State nat :=
  @process_all_pdfs nat (scripted happy) manager start.

(** The run in which the agent fails on the second of three documents. *)
Definition failing_run : outcome (list PDFProcessingResult) * State nat :=
  @process_all_pdfs nat (scripted second_fails) manager start.

(** The upload of [refs] when the vector store refuses it. *)
Definition refused_upload : outcome unit * State nat :=
  @upload_chunks nat (scripted upsert_fails) refs "report.pdf" stored.

(** The upload of [refs] as chunks of [report.pdf]. *)
Definition upload : outcome unit * State nat :=
  @upload_chunks nat (scripted happy) refs "report.pdf" stored.

End Scenario.

(** Closes [allocated] goals on a concrete store. *)
Ltac allocated_here :=
  unfold allocated;
  repeat (apply Forall_cons_2; [eexists; reflexivity|]); apply Forall_nil_2.


(** ** Properties of the string primitives *)

Section StringFacts.
Implicit Types (s t : string) (c : ascii).

Lemma str_app_cons c s t : String c s +:+ t = String c (s +:+ t).
Proof. reflexivity. Qed.

Lemma str_app_nil_l s : "" +:+ s = s.
Proof. reflexivity. Qed.

Lemma str_app_nil_r s : s +:+ "" = s.
Proof. induction s as [|c s IH]; [done|]. by rewrite str_app_cons, IH. Qed.

Lemma str_app_assoc s t u : (s +:+ t) +:+ u = s +:+ t +:+ u.
Proof. induction s as [|c s IH]; [done|]. by rewrite !str_app_cons, IH. Qed.

Lemma endswith_spec s suffix :
  PyStr.endswith s suffix = true ↔ ∃ p, s = p +:+ suffix.
Proof.
  induction s as [|c s IH]; cbn [PyStr.endswith].
  - destruct (decide ("" = suffix)) as [<-|Hne].
    + split; [by exists ""|done].
    + split; [done|]. intros [[|c p] Hp]; cbn in Hp; [done|discriminate].
  - destruct (decide (String c s = suffix)) as [<-|Hne].
    + split; [by exists ""|done].
    + rewrite IH. split.
      * intros [p ->]. by exists (String c p).
      * intros [[|c' p] Hp]; cbn in Hp; [done|].
        injection Hp as -> ->. by exists p.
Qed.

Lemma lower_app s t : PyStr.lower (s +:+ t) = PyStr.lower s +:+ PyStr.lower t.
Proof.
  induction s as [|c s IH]; [done|].
  rewrite str_app_cons. cbn [PyStr.lower]. by rewrite IH.
Qed.

Lemma lower_app_inv s p t :
  PyStr.lower s = p +:+ t →
  ∃ s1 s2, s = s1 +:+ s2 ∧ PyStr.lower s1 = p ∧ PyStr.lower s2 = t.
Proof.
  revert s. induction p as [|c p IH]; intros s Hs.
  - by exists "", s.
  - destruct s as [|c' s]; [discriminate|]. cbn in Hs.
    injection Hs as Hc Hs. destruct (IH _ Hs) as (s1 & s2 & -> & <- & <-).
    exists (String c' s1), s2. cbn. by rewrite Hc.
Qed.

Lemma lower_char_dot c : PyStr.lower_char c = "."%char → c = "."%char.
Proof.
  destruct c as [[] [] [] [] [] [] [] []]; vm_compute; intros Hc;
    first [discriminate Hc | reflexivity].
Qed.

Lemma lower_char_p c :
  PyStr.lower_char c = "p"%char ↔ (c = "p" ∨ c = "P")%char.
Proof.
  split.
  - destruct c as [[] [] [] [] [] [] [] []]; vm_compute; intros Hc;
      first [discriminate Hc | by left | by right].
  - by intros [-> | ->].
Qed.

Lemma lower_char_d c :
  PyStr.lower_char c = "d"%char ↔ (c = "d" ∨ c = "D")%char.
Proof.
  split.
  - destruct c as [[] [] [] [] [] [] [] []]; vm_compute; intros Hc;
      first [discriminate Hc | by left | by right].
  - by intros [-> | ->].
Qed.

Lemma lower_char_f c :
  PyStr.lower_char c = "f"%char ↔ (c = "f" ∨ c = "F")%char.
Proof.
  split.
  - destruct c as [[] [] [] [] [] [] [] []]; vm_compute; intros Hc;
      first [discriminate Hc | by left | by right].
  - by intros [-> | ->].
Qed.

(** The test of [_list_pdfs] decides [ends_in_pdf]. *)
Lemma endswith_lower_pdf name :
  PyStr.endswith (PyStr.lower name) ".pdf" = true ↔ ends_in_pdf name.
Proof.
  rewrite endswith_spec. split.
  - intros [p Hp]. apply lower_app_inv in Hp as (stem & ext & -> & _ & Hext).
    destruct ext as [|c0 [|c1 [|c2 [|c3 [|c4 ext]]]]]; try discriminate Hext.
    cbn in Hext. injection Hext as H0 H1 H2 H3.
    apply lower_char_dot in H0 as ->.
    exists stem, c1, c2, c3. split; [done|].
    by rewrite <-lower_char_p, <-lower_char_d, <-lower_char_f.
  - intros (stem & p & d & f & -> & Hp & Hd & Hf).
    exists (PyStr.lower stem). rewrite lower_app. f_equal. cbn.
    apply lower_char_p in Hp as ->. apply lower_char_d in Hd as ->.
    by apply lower_char_f in Hf as ->.
Qed.

End StringFacts.

(** *** Splitting, and the last segment *)

Section SplitFacts.
Implicit Types (s t seg : string) (c sep : ascii).

Lemma split_not_nil sep s : PyStr.split sep s ≠ [].
Proof.
  destruct s as [|c s]; cbn; [done|].
  destruct (decide (c = sep)); [done|]. by destruct (PyStr.split sep s).
Qed.

Lemma join_split sep s : join sep (PyStr.split sep s) = s.
Proof.
  induction s as [|c s IH]; [done|]. cbn [PyStr.split].
  pose proof (split_not_nil sep s) as Hne.
  destruct (decide (c = sep)) as [->|Hc].
  - destruct (PyStr.split sep s) as [|seg segs] eqn:Hs; [done|].
    cbn [join]. cbn [join] in IH. by rewrite IH.
  - destruct (PyStr.split sep s) as [|seg segs] eqn:Hs; [done|].
    cbn [join] in *. destruct segs; [by rewrite IH|].
    by rewrite str_app_cons, IH.
Qed.

Lemma split_no_sep sep s :
  Forall (λ seg, PyStr.contains sep seg = false) (PyStr.split sep s).
Proof.
  induction s as [|c s IH]; cbn [PyStr.split].
  - by constructor.
  - destruct (decide (c = sep)) as [->|Hc]; [by constructor|].
    destruct (PyStr.split sep s) as [|seg segs].
    + repeat constructor. cbn. by rewrite bool_decide_eq_false_2.
    + inversion IH as [|?? Hseg Hsegs]; subst. constructor; [|done].
      cbn. by rewrite bool_decide_eq_false_2.
Qed.

Lemma join_last sep segs seg :
  last segs = Some seg →
  join sep segs = seg ∨ ∃ dir, join sep segs = dir +:+ String sep seg.
Proof.
  induction segs as [|x [|y segs] IH]; intros Hlast.
  - done.
  - left. cbn in *. congruence.
  - right. change (last (x :: y :: segs)) with (last (y :: segs)) in Hlast.
    change (join sep (x :: y :: segs))
      with (x +:+ String sep (join sep (y :: segs))).
    destruct (IH Hlast) as [-> | [dir ->]]; [by exists x|].
    exists (x +:+ String sep dir). by rewrite str_app_assoc, str_app_cons.
Qed.

(** [split(sep)[-1]] is defined and is the last segment. *)
Lemma last_split sep s :
  ∃ seg, last (PyStr.split sep s) = Some seg
         ∧ PyStr.contains sep seg = false
         ∧ (s = seg ∨ ∃ dir, s = dir +:+ String sep seg).
Proof.
  destruct (last (PyStr.split sep s)) as [seg|] eqn:Hlast.
  - exists seg. split; [done|]. split.
    + pose proof (split_no_sep sep s) as Hall.
      rewrite Forall_forall in Hall. apply Hall.
      apply last_Some in Hlast as [l' ->].
      apply elem_of_app. right. apply elem_of_cons. by left.
    + pose proof (join_last sep _ _ Hlast) as Hjoin.
      by rewrite join_split in Hjoin.
  - apply last_None in Hlast. by destruct (split_not_nil sep s).
Qed.

End SplitFacts.

(** *** Replacement, and the characters of a printed integer *)

Section ReplaceFacts.
Implicit Types (s t : string) (c : ascii).

Lemma contains_app c s t :
  PyStr.contains c (s +:+ t) = PyStr.contains c s || PyStr.contains c t.
Proof.
  induction s as [|c' s IH]; [done|].
  rewrite str_app_cons. cbn [PyStr.contains]. by rewrite IH, orb_assoc.
Qed.

Lemma map_chars_app f s t :
  PyStr.map_chars f (s +:+ t) = PyStr.map_chars f s +:+ PyStr.map_chars f t.
Proof.
  induction s as [|c s IH]; [done|].
  rewrite str_app_cons. cbn [PyStr.map_chars]. by rewrite IH.
Qed.

(** The two chained replacements are one pass of [flatten]. *)
Lemma replace_replace_flatten s :
  PyStr.replace_char "." "_" (PyStr.replace_char "/" "_" s) = flatten s.
Proof.
  induction s as [|c s IH]; [done|].
  unfold flatten in *. cbn [PyStr.replace_char PyStr.map_chars].
  rewrite IH. f_equal. unfold flatten_char.
  destruct (decide (c = "/"%char)) as [->|Hslash]; [done|].
  destruct (decide (c = "."%char)) as [->|Hdot]; [done|].
  rewrite decide_False; [done|]. by intros [?|?].
Qed.

Lemma all_chars_app P s t :
  all_chars P (s +:+ t) = all_chars P s && all_chars P t.
Proof.
  induction s as [|c s IH]; [done|].
  rewrite str_app_cons. cbn [all_chars]. by rewrite IH, andb_assoc.
Qed.

Lemma pretty_N_char_numeric x : numeric (pretty_N_char x) = true.
Proof. unfold pretty_N_char. by repeat case_match. Qed.

Lemma pretty_N_go_numeric x s :
  all_chars numeric s = true → all_chars numeric (pretty_N_go x s) = true.
Proof.
  revert s. induction (N.lt_wf_0 x) as [x _ IH]; intros s Hs.
  destruct (decide (x = 0)%N) as [->|Hx]; [by rewrite pretty_N_go_0|].
  rewrite pretty_N_go_step by lia. apply IH.
  - apply N.div_lt; lia.
  - cbn [all_chars]. by rewrite pretty_N_char_numeric, Hs.
Qed.

Lemma pretty_N_numeric (x : N) : all_chars numeric (pretty x) = true.
Proof.
  unfold pretty, pretty_N. case_decide; [done|]. by apply pretty_N_go_numeric.
Qed.

(** [str(i)] for an [int] holds digits and at most a sign. *)
Lemma pretty_Z_numeric (z : Z) : all_chars numeric (pretty z) = true.
Proof.
  destruct z as [|p|p]; [done|apply pretty_N_numeric|].
  change (pretty (Z.neg p)) with ("-" +:+ pretty (N.pos p)).
  rewrite all_chars_app, pretty_N_numeric. done.
Qed.

Lemma numeric_flatten_char c : numeric c = true → flatten_char c = c.
Proof.
  intros Hc. unfold flatten_char. case_decide as Hd; [|done].
  destruct Hd as [-> | ->]; vm_compute in Hc; discriminate.
Qed.

Lemma numeric_no_underscore s :
  all_chars numeric s = true → PyStr.contains "_" s = false.
Proof.
  induction s as [|c s IH]; [done|]. cbn [all_chars PyStr.contains].
  intros [Hc Hs]%andb_true_iff. rewrite (IH Hs), orb_false_r.
  apply bool_decide_eq_false. intros ->. done.
Qed.

Lemma numeric_flatten s : all_chars numeric s = true → flatten s = s.
Proof.
  induction s as [|c s IH]; [done|]. cbn [all_chars].
  intros [Hc Hs]%andb_true_iff. unfold flatten in *.
  cbn [PyStr.map_chars]. by rewrite IH, numeric_flatten_char.
Qed.

(** A key splits at its last underscore. *)
Lemma underscore_split s s' d d' :
  PyStr.contains "_" d = false → PyStr.contains "_" d' = false →
  s +:+ String "_" d = s' +:+ String "_" d' → s = s' ∧ d = d'.
Proof.
  intros Hd Hd'. revert s'.
  induction s as [|c s IH]; intros [|c' s'] Heq.
  - by injection Heq.
  - rewrite str_app_nil_l, str_app_cons in Heq. injection Heq as <- ->.
    rewrite contains_app in Hd. cbn in Hd. by rewrite orb_true_r in Hd.
  - rewrite str_app_nil_l, str_app_cons in Heq. injection Heq as -> <-.
    rewrite contains_app in Hd'. cbn in Hd'. by rewrite orb_true_r in Hd'.
  - rewrite !str_app_cons in Heq. injection Heq as -> Heq.
    destruct (IH _ Heq) as [-> ->]. done.
Qed.

End ReplaceFacts.

(** ** Reasoning about computations *)

Section MonadFacts.
Context {World : Type}.
Implicit Types (s : State World).

Lemma bind_Return {A B} (m : M World A) (f : A → M World B) s a s1 :
  m s = (Return a, s1) → (m ≫= f) s = f a s1.
Proof. intros Hm. unfold mbind, M_bind. by rewrite Hm. Qed.

Lemma bind_Raise {A B} (m : M World A) (f : A → M World B) s e s1 :
  m s = (Raise e, s1) → (m ≫= f) s = (Raise e, s1).
Proof. intros Hm. unfold mbind, M_bind. by rewrite Hm. Qed.

Lemma bind_Return_inv {A B} (m : M World A) (f : A → M World B) s b s2 :
  (m ≫= f) s = (Return b, s2) →
  ∃ a s1, m s = (Return a, s1) ∧ f a s1 = (Return b, s2).
Proof.
  unfold mbind, M_bind. destruct (m s) as [[a|e|] s1]; intros Hf.
  - by exists a, s1.
  - discriminate.
  - discriminate.
Qed.

Lemma run_Return {A} (m : M World A) s a :
  (m s).1 = Return a → m s = (Return a, (m s).2).
Proof. destruct (m s) as [o s1]. cbn. by intros ->. Qed.

Lemma run_Raise {A} (m : M World A) s e :
  (m s).1 = Raise e → m s = (Raise e, (m s).2).
Proof. destruct (m s) as [o s1]. cbn. by intros ->. Qed.

End MonadFacts.

(** ** The persistence service *)

Section UploadFacts.
Context {World : Type} `{!Collaborators World}.
Implicit Types (s : State World) (c : DocumentChunk) (l : loc).

Lemma backfill_idemp fn c : backfill fn (backfill fn c) = backfill fn c.
Proof.
  unfold backfill. cbn.
  destruct (source_file c) as [[|a v]|]; cbn; try done; by destruct fn.
Qed.

Lemma backfill_truthy fn c :
  truthy (source_file c) = true → backfill fn c = c.
Proof. destruct c as [i d t x [[|a v]|]]; cbn; by intros. Qed.

Lemma backfill_falsy fn c :
  truthy (source_file c) = false →
  backfill fn c = mkChunk (chunk_id c) (document_date c) (section_type c)
                          (content c) (Some fn).
Proof. destruct c as [i d t x [[|a v]|]]; cbn; by intros. Qed.

(** One turn of the loop of [upload_chunks] up to the point where the
    chunk's attributes are read for the record. *)
Lemma backfill_step {A} fn l c s (k : DocumentChunk → M World A) :
  heap s !! l = Some c →
  (c0 ← deref l;
   _ ← (if negb (truthy (source_file c0))
        then set_source_file l (Some fn) else mret ());
   c1 ← deref l; k c1) s
  = k (backfill fn c)
      (mkState (<[l := backfill fn c]> (heap s)) (world s) (trace s)).
Proof.
  intros Hl. destruct s as [h w t]. cbn in Hl.
  rewrite (bind_Return _ _ _ c (mkState h w t));
    [|by unfold deref; cbn; rewrite Hl].
  destruct (truthy (source_file c)) eqn:Htruthy; cbn [negb].
  - rewrite (bind_Return _ _ _ () (mkState h w t)); [|done].
    rewrite (bind_Return _ _ _ c (mkState h w t));
      [|by unfold deref; cbn; rewrite Hl].
    rewrite backfill_truthy by done. by rewrite insert_id.
  - rewrite (bind_Return _ _ _ ()
               (mkState (<[l := backfill fn c]> h) w t));
      [|by unfold set_source_file; cbn; rewrite Hl, backfill_falsy].
    rewrite (bind_Return _ _ _ (backfill fn c)
               (mkState (<[l := backfill fn c]> h) w t));
      [done|by unfold deref; cbn; rewrite lookup_insert_eq].
Qed.

(** What the loop computes: it cannot fail on allocated chunks, backfills
    exactly the listed objects, and extends both accumulators by one entry
    per chunk, in order. *)
Lemma upload_loop_spec fn cs : ∀ docs ids s,
  allocated (heap s) cs →
  ∃ h' D I,
    upload_loop cs fn docs ids s
    = (Return (docs ++ D, ids ++ I), mkState h' (world s) (trace s))
    ∧ (∀ l, h' !! l = if decide (l ∈ cs)
                      then backfill fn <$> heap s !! l else heap s !! l)
    ∧ Forall2 (λ l d, ∃ c, heap s !! l = Some c
                           ∧ d = chunk_document (backfill fn c)) cs D
    ∧ Forall2 (λ l i, ∃ c, heap s !! l = Some c
                           ∧ i = doc_id fn (chunk_id c)) cs I.
Proof.
  induction cs as [|l cs IH]; intros docs ids s Hall.
  - exists (heap s), [], []. rewrite !app_nil_r. destruct s. cbn.
    split; [done|]. split; [|split; constructor].
    intros l. rewrite decide_False; [done|]. apply not_elem_of_nil.
  - apply Forall_cons in Hall as [[c Hc] Hall].
    cbn [upload_loop]. rewrite (backfill_step fn l c s _ Hc).
    set (s1 := mkState (<[l := backfill fn c]> (heap s)) (world s) (trace s)).
    assert (Hlook1 : ∀ l', heap s1 !! l'
              = if decide (l' = l) then Some (backfill fn c) else heap s !! l').
    { intros l'. cbn. rewrite lookup_insert. by repeat case_decide. }
    assert (allocated (heap s1) cs) as Hall1.
    { eapply Forall_impl; [exact Hall|]. intros l' Hl'. rewrite Hlook1.
      by case_decide. }
    destruct (IH (docs ++ [chunk_document (backfill fn c)])
                 (ids ++ [doc_id fn (chunk_id (backfill fn c))]) s1 Hall1)
      as (h' & D & I & Hrun & Hh' & HD & HI).
    exists h', (chunk_document (backfill fn c) :: D),
           (doc_id fn (chunk_id c) :: I).
    rewrite Hrun, <-!app_assoc. split; [done|]. split; [|split].
    + intros l'. rewrite Hh', Hlook1.
      destruct (decide (l' = l)) as [->|Hne].
      * rewrite Hc, (decide_True (P := l ∈ l :: cs))
          by (apply elem_of_cons; by left). cbn.
        case_decide; [by rewrite backfill_idemp|done].
      * destruct (decide (l' ∈ cs)) as [Hin|Hnin].
        -- by rewrite decide_True by (apply elem_of_cons; by right).
        -- by rewrite decide_False by (by apply not_elem_of_cons).
    + constructor; [by exists c|].
      eapply Forall2_impl; [exact HD|]. intros l' d (c1 & Hc1 & ->).
      rewrite Hlook1 in Hc1. case_decide; [|by exists c1].
      subst l'. injection Hc1 as <-. exists c. by rewrite backfill_idemp.
    + constructor; [by exists c|].
      eapply Forall2_impl; [exact HI|]. intros l' i (c1 & Hc1 & ->).
      rewrite Hlook1 in Hc1. case_decide; [|by exists c1].
      subst l'. injection Hc1 as <-. by exists c.
Qed.

(** [upload_chunks] as a whole: the loop, then one upsert whose answer is
    the answer of the call. *)
Lemma upload_chunks_spec fn cs s :
  allocated (heap s) cs →
  ∃ h' D I,
    upload_chunks cs fn s
    = (match (add_documents D I (world s)).1 with
       | inl e => Raise e
       | inr _ => Return ()
       end,
       mkState h' (add_documents D I (world s)).2
               (trace s ++ [CallAddDocuments D I]))
    ∧ (∀ l, h' !! l = if decide (l ∈ cs)
                      then backfill fn <$> heap s !! l else heap s !! l)
    ∧ Forall2 (λ l d, ∃ c, heap s !! l = Some c
                           ∧ d = chunk_document (backfill fn c)) cs D
    ∧ Forall2 (λ l i, ∃ c, heap s !! l = Some c
                           ∧ i = doc_id fn (chunk_id c)) cs I.
Proof.
  intros Hall.
  destruct (upload_loop_spec fn cs [] [] s Hall)
    as (h' & D & I & Hrun & Hh' & HD & HI).
  exists h', D, I. split; [|done].
  unfold upload_chunks. rewrite (bind_Return _ _ _ _ _ Hrun).
  unfold external. cbn.
  destruct (add_documents D I (world s)) as [[e|[]] w]; done.
Qed.

End UploadFacts.

(** ** Storage keys *)

Section KeyFacts.

Lemma doc_id_flatten name i :
  doc_id name i = flatten (name +:+ "_" +:+ pretty i).
Proof. apply replace_replace_flatten. Qed.

Lemma doc_id_split name i :
  doc_id name i = flatten name +:+ String "_" (pretty i).
Proof.
  rewrite doc_id_flatten. unfold flatten.
  rewrite map_chars_app, str_app_cons, str_app_nil_l.
  cbn [PyStr.map_chars]. f_equal. f_equal.
  apply numeric_flatten, pretty_Z_numeric.
Qed.

(** Two display names that differ only in a ['.'] against a ['_'] share
    their keys. *)
Lemma doc_id_collision :
  ("jan.v2.pdf", 0) ≠ ("jan_v2.pdf", 0)
  ∧ doc_id "jan.v2.pdf" 0 = doc_id "jan_v2.pdf" 0.
Proof. split; [discriminate|reflexivity]. Qed.

(** C6 as stated fails: the derivation is not injective. *)
Lemma doc_id_not_injective : ¬ doc_id_injective.
Proof.
  intros Hinj. destruct doc_id_collision as [Hne Heq].
  exact (Hinj _ _ _ _ Hne Heq).
Qed.

Lemma doc_id_eq_inv name1 i1 name2 i2 :
  doc_id name1 i1 = doc_id name2 i2 → flatten name1 = flatten name2 ∧ i1 = i2.
Proof.
  rewrite !doc_id_split. intros Heq.
  apply underscore_split in Heq as [Hname Hi];
    [|by apply numeric_no_underscore, pretty_Z_numeric..].
  split; [done|]. by apply (inj pretty).
Qed.

Lemma doc_id_same_name name i1 i2 :
  i1 ≠ i2 → doc_id name i1 ≠ doc_id name i2.
Proof. intros Hne Heq. apply doc_id_eq_inv in Heq as [_ ?]. done. Qed.

(** C6 (amended): two keys are equal exactly when the chunk ids are equal
    and the display names agree once ['/'] and ['.'] are read as ['_']; so
    within one display name distinct chunk ids have distinct keys. *)
Theorem doc_id_eq_iff name1 i1 name2 i2 :
  doc_id name1 i1 = doc_id name2 i2 ↔ flatten name1 = flatten name2 ∧ i1 = i2.
Proof.
  split.
  - apply doc_id_eq_inv.
  - intros [Hname ->]. by rewrite !doc_id_split, Hname.
Qed.

End KeyFacts.

(** ** What [upload_chunks] does to the chunks and sends to the store *)

Section PersistenceClaims.
Context {World : Type} `{!Collaborators World}.
Implicit Types (s : State World) (c : DocumentChunk) (l : loc).

(** The store after the call, object by object. *)
Lemma upload_chunks_heap fn cs s l :
  allocated (heap s) cs →
  heap (upload_chunks cs fn s).2 !! l
  = if decide (l ∈ cs) then backfill fn <$> heap s !! l else heap s !! l.
Proof.
  intros Hall.
  destruct (upload_chunks_spec fn cs s Hall) as (h' & D & I & -> & Hh' & _).
  apply Hh'.
Qed.

(** C4 (amended): a chunk whose [source_file] is [None] carries the display
    name afterwards, and a chunk whose [source_file] is a non-empty string
    keeps it. *)
Theorem upload_chunks_backfill fn cs s l c :
  allocated (heap s) cs → l ∈ cs → heap s !! l = Some c →
  ∃ c', heap (upload_chunks cs fn s).2 !! l = Some c'
        ∧ (source_file c = None → source_file c' = Some fn)
        ∧ (∀ v, source_file c = Some v → v ≠ "" → source_file c' = Some v).
Proof.
  intros Hall Hin Hc. exists (backfill fn c).
  rewrite upload_chunks_heap, decide_True, Hc by done.
  split; [done|]. unfold backfill; cbn. split.
  - by intros ->.
  - intros v -> Hv. by destruct v.
Qed.

(** C10: a chunk whose [source_file] is the empty string carries the
    display name afterwards. *)
Theorem upload_chunks_overwrites_empty fn cs s l c :
  allocated (heap s) cs → l ∈ cs → heap s !! l = Some c →
  source_file c = Some "" →
  ∃ c', heap (upload_chunks cs fn s).2 !! l = Some c'
        ∧ source_file c' = Some fn.
Proof.
  intros Hall Hin Hc Hsrc. exists (backfill fn c).
  rewrite upload_chunks_heap, decide_True, Hc by done.
  split; [done|]. unfold backfill; cbn. by rewrite Hsrc.
Qed.

Lemma backfill_same fn c : same_but_source_file c (backfill fn c).
Proof. by repeat split. Qed.

Lemma same_but_source_file_refl c : same_but_source_file c c.
Proof. by repeat split. Qed.

(** C9: the call keeps the store's objects in place; every object keeps
    its [chunk_id], [document_date], [section_type] and [content]; objects
    outside the list are untouched; and the chunks read through the list
    before and after correspond position by position. *)
Theorem upload_chunks_frame fn cs s :
  allocated (heap s) cs →
  (∀ l c, heap s !! l = Some c →
     ∃ c', heap (upload_chunks cs fn s).2 !! l = Some c'
           ∧ same_but_source_file c c'
           ∧ (l ∉ cs → c' = c))
  ∧ (∀ l, heap s !! l = None → heap (upload_chunks cs fn s).2 !! l = None)
  ∧ Forall2 (option_Forall2 same_but_source_file)
      ((λ l, heap s !! l) <$> cs)
      ((λ l, heap (upload_chunks cs fn s).2 !! l) <$> cs).
Proof.
  intros Hall. split; [|split].
  - intros l c Hc. rewrite upload_chunks_heap, Hc by done.
    case_decide; cbn.
    + exists (backfill fn c). by auto using backfill_same.
    + exists c. by auto using same_but_source_file_refl.
  - intros l Hl. rewrite upload_chunks_heap, Hl by done. by case_decide.
  - apply Forall2_fmap, Forall_Forall2_diag, Forall_forall.
    intros l Hin. rewrite upload_chunks_heap, decide_True by done.
    destruct (heap s !! l) as [c|]; constructor. apply backfill_same.
Qed.

Lemma Forall2_impl_elem_of {A B} (P Q : A → B → Prop) xs ys :
  Forall2 P xs ys → (∀ x y, x ∈ xs → P x y → Q x y) → Forall2 Q xs ys.
Proof.
  induction 1 as [|x y xs ys HP _ IH]; intros HPQ; constructor.
  - apply HPQ; [by left|done].
  - apply IH. intros x' y' Hin. apply HPQ. by right.
Qed.

Lemma dom_chunk_metadata c : dom (chunk_metadata c) = metadata_keys.
Proof.
  unfold chunk_metadata, metadata_keys.
  rewrite !dom_insert_L, dom_empty_L. reflexivity.
Qed.

(** C8: on allocated chunks the call issues exactly one call to the vector
    store, an upsert; it carries one record and one key per chunk, in
    order; each record's text is the chunk's [content] and its metadata
    has exactly the keys [source_file], [chunk_id], [document_date] and
    [section_type], holding the chunk's fields (with [source_file] as the
    chunk carries it after the call). *)
Theorem upload_chunks_one_upsert fn cs s :
  allocated (heap s) cs →
  ∃ docs ids,
    trace (upload_chunks cs fn s).2 = trace s ++ [CallAddDocuments docs ids]
    ∧ length ids = length cs
    ∧ Forall2 (λ l d, ∃ c c',
          heap s !! l = Some c
          ∧ heap (upload_chunks cs fn s).2 !! l = Some c'
          ∧ page_content d = content c
          ∧ dom (metadata d) = metadata_keys
          ∧ metadata d !! "source_file" = Some (of_optional (source_file c'))
          ∧ metadata d !! "chunk_id" = Some (VInt (chunk_id c))
          ∧ metadata d !! "document_date" = Some (of_optional (document_date c))
          ∧ metadata d !! "section_type" = Some (VStr (section_type c)))
        cs docs.
Proof.
  intros Hall.
  destruct (upload_chunks_spec fn cs s Hall) as (h' & D & I & Hrun & Hh' & HD & HI).
  exists D, I. rewrite Hrun. cbn [snd trace heap]. split; [done|]. split.
  - symmetry. by eapply Forall2_length.
  - eapply Forall2_impl_elem_of; [exact HD|].
    intros l d Hin (c & Hc & ->). exists c, (backfill fn c).
    rewrite Hh', decide_True, Hc by done.
    split; [done|]. split; [done|]. split; [done|].
    split; [apply dom_chunk_metadata|]. by repeat split.
Qed.

(** C5: the key for display name ["2024/jan.pdf"] and chunk id [3] is
    ["2024_jan_pdf_3"]; every key is the text [name_id] with each ['/'] and
    ['.'] replaced by ['_']; and the keys [upload_chunks] sends are, chunk
    by chunk, that function of the display name and the chunk's
    [chunk_id] alone, whatever the store, the world and the trace. *)
Theorem doc_id_deterministic fn cs s :
  allocated (heap s) cs →
  doc_id "2024/jan.pdf" 3 = "2024_jan_pdf_3"
  ∧ (∀ name i, doc_id name i = flatten (name +:+ "_" +:+ pretty i))
  ∧ ∃ docs ids,
      trace (upload_chunks cs fn s).2 = trace s ++ [CallAddDocuments docs ids]
      ∧ Forall2 (λ l key, ∃ c, heap s !! l = Some c
                               ∧ key = doc_id fn (chunk_id c)) cs ids.
Proof.
  intros Hall. split; [reflexivity|]. split; [apply doc_id_flatten|].
  destruct (upload_chunks_spec fn cs s Hall) as (h' & D & I & Hrun & _ & _ & HI).
  exists D, I. by rewrite Hrun.
Qed.

End PersistenceClaims.

(** ** Discovery *)

Section DiscoveryFacts.
Context {World : Type} `{!Collaborators World}.
Implicit Types (s : State World) (self : FlowManager).

Lemma filter_discovered listing :
  discovered listing
    (filter (λ name, PyStr.endswith (PyStr.lower name) ".pdf" = true) listing).
Proof.
  induction listing as [|name listing IH]; [constructor|].
  destruct (PyStr.endswith (PyStr.lower name) ".pdf") eqn:Hname.
  - rewrite filter_cons_True by done.
    constructor; [by apply endswith_lower_pdf|done].
  - rewrite filter_cons_False by (by rewrite Hname).
    constructor; [|done]. rewrite <-endswith_lower_pdf. by rewrite Hname.
Qed.

Lemma discovered_elem_of listing found name :
  discovered listing found →
  name ∈ found ↔ name ∈ listing ∧ ends_in_pdf name.
Proof.
  induction 1 as [|n listing found Hn _ IH|n listing found Hn _ IH].
  - split; [by intros ?%elem_of_nil|by intros [?%elem_of_nil _]].
  - rewrite !elem_of_cons, IH. split.
    + intros [->|[? ?]]; auto.
    + intros [[->|?] ?]; auto.
  - rewrite elem_of_cons, IH. split.
    + intros [? ?]; auto.
    + intros [[->|?] ?]; [done|auto].
Qed.

Lemma discovered_sublist listing found :
  discovered listing found → found `sublist_of` listing.
Proof. induction 1; by constructor. Qed.

Lemma discovered_none listing found :
  discovered listing found →
  (∀ name, name ∈ listing → ¬ ends_in_pdf name) → found = [].
Proof.
  intros Hd Hnone. destruct found as [|name found]; [done|].
  assert (name ∈ name :: found) as Hin by (by left).
  apply (discovered_elem_of _ _ _ Hd) in Hin as [Hin Hpdf].
  by destruct (Hnone name Hin).
Qed.

Lemma list_pdfs_run self s listing w' :
  list_blobs (bucket_name self) (folder_path self) (world s) = (inr listing, w') →
  _list_pdfs self s
  = (Return (filter (λ name, PyStr.endswith (PyStr.lower name) ".pdf" = true)
                    listing),
     mkState (heap s) w'
             (trace s ++ [CallListBlobs (bucket_name self) (folder_path self)])).
Proof.
  intros Hlist. unfold _list_pdfs.
  erewrite bind_Return; [done|]. unfold external. by rewrite Hlist.
Qed.

Lemma list_pdfs_raise self s e w' :
  list_blobs (bucket_name self) (folder_path self) (world s) = (inl e, w') →
  _list_pdfs self s
  = (Raise e,
     mkState (heap s) w'
             (trace s ++ [CallListBlobs (bucket_name self) (folder_path self)])).
Proof.
  intros Hlist. unfold _list_pdfs.
  erewrite bind_Raise; [done|]. unfold external. by rewrite Hlist.
Qed.

(** C2: when the bucket answers with a listing, [_list_pdfs] returns (it
    does not raise) the names of the listing that end in [.pdf] in any
    case, each occurrence kept and in the order of the listing; with no
    such name it returns the empty list. *)
Theorem list_pdfs_discovers self s listing w' :
  list_blobs (bucket_name self) (folder_path self) (world s) = (inr listing, w') →
  ∃ found,
    (_list_pdfs self s).1 = Return found
    ∧ discovered listing found
    ∧ (∀ name, name ∈ found ↔ name ∈ listing ∧ ends_in_pdf name)
    ∧ found `sublist_of` listing
    ∧ ((∀ name, name ∈ listing → ¬ ends_in_pdf name) → found = []).
Proof.
  intros Hlist. rewrite (list_pdfs_run _ _ _ _ Hlist). eexists. split; [done|].
  pose proof (filter_discovered listing) as Hd.
  split; [exact Hd|]. split; [|split].
  - intros name. by apply discovered_elem_of.
  - by apply discovered_sublist.
  - by apply discovered_none.
Qed.

End DiscoveryFacts.

(** ** The chunking agent's output in the store *)

Section AllocationFacts.
Context {World : Type} `{!Collaborators World}.
Implicit Types (s : State World) (self : FlowManager).

Lemma external_Return_inv {A} call (f : World → (exn + A) * World) s a s' :
  external call f s = (Return a, s') →
  ∃ w, f (world s) = (inr a, w)
       ∧ s' = mkState (heap s) w (trace s ++ [call]).
Proof.
  unfold external. destruct (f (world s)) as [[e|a'] w]; intros Hrun.
  - discriminate.
  - injection Hrun as -> <-. by exists w.
Qed.

Lemma external_cases {A} call (f : World → (exn + A) * World) s :
  (∃ a, external call f s
        = (Return a, mkState (heap s) (f (world s)).2 (trace s ++ [call])))
  ∨ (∃ e, external call f s
          = (Raise e, mkState (heap s) (f (world s)).2 (trace s ++ [call]))).
Proof.
  unfold external. destruct (f (world s)) as [[e|a] w]; cbn; eauto.
Qed.

(** The objects made from the agent's output are new, hold that output, and
    leave the older objects as they are. *)
Lemma mapM_alloc_spec output : ∀ s,
  ∃ locs h',
    mapM alloc output s = (Return locs, mkState h' (world s) (trace s))
    ∧ Forall2 (λ l c, h' !! l = Some c) locs output
    ∧ Forall (λ l, heap s !! l = None) locs
    ∧ (∀ l c, heap s !! l = Some c → h' !! l = Some c).
Proof.
  induction output as [|c output IH]; intros s.
  - exists [], (heap s). destruct s. cbn. by repeat split.
  - set (l := fresh (dom (heap s))).
    assert (heap s !! l = None) as Hfresh.
    { apply not_elem_of_dom, is_fresh. }
    set (s1 := mkState (<[l := c]> (heap s)) (world s) (trace s)).
    destruct (IH s1) as (locs & h' & Hrun & Hheld & Hnew & Hold).
    exists (l :: locs), h'. split; [|split; [|split]].
    + change (mapM alloc (c :: output) s)
        with ((y ← alloc c; k ← mapM alloc output; mret (y :: k)) s).
      rewrite (bind_Return _ _ _ l s1) by done.
      by rewrite (bind_Return _ _ _ _ _ Hrun).
    + constructor; [|done]. apply Hold. cbn. apply lookup_insert_eq.
    + constructor; [done|]. eapply Forall_impl; [exact Hnew|].
      intros l' Hl'. cbn in Hl'. by apply lookup_insert_None in Hl' as [? _].
    + intros l' c' Hl'. apply Hold. cbn. rewrite lookup_insert_ne; [done|].
      intros ->. congruence.
Qed.

Lemma Forall2_lookup_allocated (h : gmap loc DocumentChunk) locs output :
  Forall2 (λ l c, h !! l = Some c) locs output → allocated h locs.
Proof. induction 1; constructor; eauto. Qed.

(** [_process_single_pdf] either returns or fails at one of its three
    stages; it never stops on a dangling reference. *)
Lemma process_single_pdf_cases self blob_name s :
  (∃ result s', _process_single_pdf self blob_name s = (Return result, s'))
  ∨ (∃ e s', stage_failure self blob_name s e s').
Proof.
  destruct (last_split "/" blob_name) as (name & Hlast & _).
  assert (Hget : ∀ s0, getitem_last (PyStr.split "/" blob_name) s0
                       = (Return name, s0)).
  { intros s0. unfold getitem_last. by rewrite Hlast. }
  destruct (external_cases (CallDownload (bucket_name self) blob_name)
              (download_as_bytes (bucket_name self) blob_name) s)
    as [[pdf_bytes Hdown] | [e Hdown]];
    [|right; eexists _, _; by apply acquisition_fails].
  match type of Hdown with _ = (_, ?st) => set (s1 := st) in * end.
  set (prompt := [Text ("Process this PDF document: " +:+ name);
                  BinaryContent pdf_bytes "application/pdf"]).
  destruct (external_cases (CallAgentRun prompt) (agent_run prompt) s1)
    as [[output Hagent] | [e Hagent]].
  - match type of Hagent with _ = (_, ?st) => set (s2 := st) in * end.
    destruct (mapM_alloc_spec output s2) as (locs & h3 & Halloc & Hheld & _ & _).
    set (s3 := mkState h3 (world s2) (trace s2)) in *.
    assert (process_pdf pdf_bytes name s1 = (Return locs, s3)) as Hchunk.
    { unfold process_pdf. fold prompt. by rewrite (bind_Return _ _ _ _ _ Hagent). }
    assert (allocated (heap s3) locs) as Hall
      by (by eapply Forall2_lookup_allocated).
    destruct (upload_chunks_spec name locs s3 Hall) as (h4 & D & I & Hup & _).
    destruct (add_documents D I (world s3)).1 as [e|[]] eqn:Hadd.
    + right. eexists _, _. by eapply persistence_fails.
    + left. eexists _, _. unfold _process_single_pdf.
      rewrite (bind_Return _ _ _ _ _ (Hget s)).
      rewrite (bind_Return _ _ _ _ _ Hdown).
      rewrite (bind_Return _ _ _ _ _ Hchunk). cbn [chunks].
      by rewrite (bind_Return _ _ _ _ _ Hup).
  - right. eexists _, _. eapply chunking_fails; [done..|].
    unfold process_pdf. fold prompt. by rewrite (bind_Raise _ _ _ _ _ Hagent).
Qed.

(** After a successful [_process_single_pdf] the result's chunks are the
    agent's output, backfilled with the display name, and the objects that
    were in the store before are as they were. *)
Lemma process_single_pdf_chunks self blob_name s result s' :
  _process_single_pdf self blob_name s = (Return result, s') →
  ∃ pdf_bytes w1 output w2,
    download_as_bytes (bucket_name self) blob_name (world s) = (inr pdf_bytes, w1)
    ∧ agent_run [Text ("Process this PDF document: " +:+ file_name result);
                 BinaryContent pdf_bytes "application/pdf"] w1
      = (inr output, w2)
    ∧ Forall2 (λ l c, heap s' !! l = Some (backfill (file_name result) c))
              (chunks result) output
    ∧ (∀ l c, heap s !! l = Some c → heap s' !! l = Some c).
Proof.
  destruct (last_split "/" blob_name) as (name & Hlast & _).
  unfold _process_single_pdf, getitem_last. rewrite Hlast.
  rewrite (bind_Return _ _ _ name s) by done. intros Hrun.
  apply bind_Return_inv in Hrun as (pdf_bytes & s1 & Hdown & Hrun).
  apply bind_Return_inv in Hrun as (extracted & s3 & Hchunk & Hrun).
  apply bind_Return_inv in Hrun as ([] & s4 & Hup & Hrun).
  injection Hrun as <- <-. cbn [chunks file_name] in *.
  apply external_Return_inv in Hdown as (w1 & Hdown & ->).
  unfold process_pdf in Hchunk.
  apply bind_Return_inv in Hchunk as (output & s2 & Hagent & Halloc).
  apply external_Return_inv in Hagent as (w2 & Hagent & ->).
  cbn [world heap trace] in *.
  match type of Halloc with mapM alloc output ?st = _ => set (s2 := st) in * end.
  destruct (mapM_alloc_spec output s2) as (locs & h3 & Halloc' & Hheld & Hnew & Hold).
  rewrite Halloc' in Halloc. injection Halloc as <- <-.
  assert (allocated h3 locs) as Hall by (by eapply Forall2_lookup_allocated).
  destruct (upload_chunks_spec name locs (mkState h3 (world s2) (trace s2)) Hall)
    as (h4 & D & I & Hup' & Hh4 & _).
  pose proof (eq_trans (eq_sym Hup') Hup) as Heq.
  injection Heq as _ <-. cbn [heap] in *.
  exists pdf_bytes, w1, output, w2. split; [done|]. split; [done|]. split.
  - eapply Forall2_impl_elem_of; [exact Hheld|].
    intros l c Hin Hl. by rewrite Hh4, decide_True, Hl.
  - intros l c Hl. rewrite Hh4, (Hold _ _ Hl). case_decide as Hin; [|done].
    rewrite Forall_forall in Hnew. specialize (Hnew _ Hin). cbn in Hnew.
    congruence.
Qed.

End AllocationFacts.

(** ** Processing the documents *)

Section OrchestratorFacts.
Context {World : Type} `{!Collaborators World}.
Implicit Types (s : State World) (self : FlowManager).

Lemma getitem_last_split blob_name s :
  ∃ name, last (PyStr.split "/" blob_name) = Some name
          ∧ is_last_segment blob_name name
          ∧ getitem_last (PyStr.split "/" blob_name) s = (Return name, s).
Proof.
  destruct (last_split "/" blob_name) as (name & Hlast & Hno & Hpath).
  exists name. split; [done|]. split; [by split|].
  unfold getitem_last. by rewrite Hlast.
Qed.

(** A successful [_process_single_pdf] names its result after the last
    path segment of the blob. *)
Lemma process_single_pdf_file_name self blob_name s result s' :
  _process_single_pdf self blob_name s = (Return result, s') →
  last (PyStr.split "/" blob_name) = Some (file_name result)
  ∧ is_last_segment blob_name (file_name result).
Proof.
  destruct (getitem_last_split blob_name s) as (name & Hlast & Hseg & Hget).
  unfold _process_single_pdf. rewrite (bind_Return _ _ _ _ _ Hget).
  intros Hrun.
  apply bind_Return_inv in Hrun as (pdf_bytes & s1 & _ & Hrun).
  apply bind_Return_inv in Hrun as (extracted & s2 & _ & Hrun).
  apply bind_Return_inv in Hrun as ([] & s3 & _ & Hrun).
  injection Hrun as <- _. done.
Qed.

(** A failure at any stage is the failure of [_process_single_pdf]. *)
Lemma stage_failure_raises self blob_name s e s' :
  stage_failure self blob_name s e s' →
  _process_single_pdf self blob_name s = (Raise e, s').
Proof.
  destruct (getitem_last_split blob_name s) as (name & Hlast & _ & Hget).
  unfold _process_single_pdf. rewrite (bind_Return _ _ _ _ _ Hget).
  intros [Hdown | name' pdf_bytes s1 Hname Hdown Hchunk
                | name' pdf_bytes s1 extracted s2 Hname Hdown Hchunk Hup].
  - by rewrite (bind_Raise _ _ _ _ _ Hdown).
  - assert (name' = name) as -> by congruence.
    rewrite (bind_Return _ _ _ _ _ Hdown).
    by rewrite (bind_Raise _ _ _ _ _ Hchunk).
  - assert (name' = name) as -> by congruence.
    rewrite (bind_Return _ _ _ _ _ Hdown).
    rewrite (bind_Return _ _ _ _ _ Hchunk). cbn [chunks].
    by rewrite (bind_Raise _ _ _ _ _ Hup).
Qed.

Lemma process_loop_all_succeed self pdf_files s results s' :
  all_succeed self pdf_files s results s' →
  ∀ acc, process_loop self pdf_files acc s = (Return (acc ++ results), s').
Proof.
  induction 1 as [s|blob_name rest s result s1 results s2 Hone _ IH];
    intros acc; cbn [process_loop].
  - by rewrite app_nil_r.
  - rewrite (bind_Return _ _ _ _ _ Hone), IH. by rewrite <-app_assoc.
Qed.

Lemma process_loop_Return_inv self pdf_files : ∀ acc s out s',
  process_loop self pdf_files acc s = (Return out, s') →
  ∃ results, out = acc ++ results ∧ all_succeed self pdf_files s results s'.
Proof.
  induction pdf_files as [|blob_name rest IH]; intros acc s out s' Hrun;
    cbn [process_loop] in Hrun.
  - injection Hrun as <- <-. exists []. rewrite app_nil_r.
    split; [done|constructor].
  - apply bind_Return_inv in Hrun as (result & s1 & Hone & Hrun).
    apply IH in Hrun as (results & -> & Hrest).
    exists (result :: results). rewrite <-app_assoc.
    split; [done|]. by econstructor.
Qed.

(** The loop stops at the first failing document. *)
Lemma process_loop_stage_failure self pre blob_name post s results s1 e s2 :
  all_succeed self pre s results s1 →
  _process_single_pdf self blob_name s1 = (Raise e, s2) →
  ∀ acc, process_loop self (pre ++ blob_name :: post) acc s = (Raise e, s2).
Proof.
  intros Hpre Hfail.
  induction Hpre as [s|d rest s result s1 results s3 Hone _ IH];
    intros acc; cbn [app process_loop].
  - by rewrite (bind_Raise _ _ _ _ _ Hfail).
  - rewrite (bind_Return _ _ _ _ _ Hone). by apply IH.
Qed.

Lemma all_succeed_file_names self pdf_files s results s' :
  all_succeed self pdf_files s results s' →
  Forall2 (λ blob_name result,
             last (PyStr.split "/" blob_name) = Some (file_name result)
             ∧ is_last_segment blob_name (file_name result))
          pdf_files results.
Proof.
  induction 1 as [s|blob_name rest s result s1 results s2 Hone _ IH];
    constructor; [|done].
  by eapply process_single_pdf_file_name.
Qed.

(** A run that returns is a run in which every discovered document was
    processed successfully. *)
Lemma process_all_pdfs_Return_inv self s results s2 :
  process_all_pdfs self s = (Return results, s2) →
  ∃ pdf_files s1,
    _list_pdfs self s = (Return pdf_files, s1)
    ∧ all_succeed self pdf_files s1 results s2.
Proof.
  unfold process_all_pdfs. intros Hrun.
  apply bind_Return_inv in Hrun as (pdf_files & s1 & Hlist & Hrun).
  exists pdf_files, s1. split; [done|].
  case_bool_decide as Hnil.
  - subst pdf_files. injection Hrun as <- <-. constructor.
  - by apply process_loop_Return_inv in Hrun as (results' & -> & Hall).
Qed.

(** C1: when discovery returns [pdf_files] and every one of them is
    processed successfully, [process_all_pdfs] returns the results of those
    documents, as many as there are documents and in their order, and the
    [file_name] of each result is the last path segment of its document's
    identifier. *)
Theorem process_all_pdfs_order self s pdf_files s1 results s2 :
  _list_pdfs self s = (Return pdf_files, s1) →
  all_succeed self pdf_files s1 results s2 →
  process_all_pdfs self s = (Return results, s2)
  ∧ length results = length pdf_files
  ∧ Forall2 (λ blob_name result,
               last (PyStr.split "/" blob_name) = Some (file_name result)
               ∧ is_last_segment blob_name (file_name result))
            pdf_files results.
Proof.
  intros Hlist Hall.
  pose proof (all_succeed_file_names _ _ _ _ _ Hall) as Hnames.
  split; [|split; [symmetry; by eapply Forall2_length|done]].
  unfold process_all_pdfs. rewrite (bind_Return _ _ _ _ _ Hlist).
  case_bool_decide as Hnil.
  - subst pdf_files. by inversion Hall.
  - by rewrite (process_loop_all_succeed _ _ _ _ _ Hall []).
Qed.

(** C3: when discovery returns the documents [pre ++ blob_name :: post],
    those of [pre] succeed and [blob_name] fails at acquisition, chunking
    or persistence with [e], then [process_all_pdfs] raises [e]: it returns
    no list, and it stops in the state of the failure, so that nothing is
    done for the documents of [post]. *)
Theorem process_all_pdfs_fail_fast
    self s pre blob_name post s1 results s2 e s3 :
  _list_pdfs self s = (Return (pre ++ blob_name :: post), s1) →
  all_succeed self pre s1 results s2 →
  stage_failure self blob_name s2 e s3 →
  process_all_pdfs self s = (Raise e, s3).
Proof.
  intros Hlist Hpre Hfail%stage_failure_raises.
  unfold process_all_pdfs. rewrite (bind_Return _ _ _ _ _ Hlist).
  rewrite bool_decide_eq_false_2 by (by destruct pre).
  by eapply process_loop_stage_failure.
Qed.

(** C7 (amended): a failing collaborator's exception leaves the pipeline
    as it is. When the listing call fails with [e], [_list_pdfs] raises
    [e]; when the download fails with [e], or the download succeeds and
    the agent fails with [e], [_process_single_pdf] raises [e]; and when
    the upsert fails with [e], [upload_chunks] raises [e]. *)
Theorem collaborator_exception_escapes self s blob_name extracted name e :
  (∀ w', list_blobs (bucket_name self) (folder_path self) (world s)
         = (inl e, w') →
         (_list_pdfs self s).1 = Raise e)
  ∧ (∀ w', download_as_bytes (bucket_name self) blob_name (world s)
           = (inl e, w') →
           (_process_single_pdf self blob_name s).1 = Raise e)
  ∧ (∀ pdf_bytes w1 w2 prompt,
       download_as_bytes (bucket_name self) blob_name (world s)
       = (inr pdf_bytes, w1) →
       last (PyStr.split "/" blob_name) = Some name →
       prompt = [Text ("Process this PDF document: " +:+ name);
                 BinaryContent pdf_bytes "application/pdf"] →
       agent_run prompt w1 = (inl e, w2) →
       (_process_single_pdf self blob_name s).1 = Raise e)
  ∧ (allocated (heap s) extracted →
     ∃ documents ids,
       trace (upload_chunks extracted name s).2
       = trace s ++ [CallAddDocuments documents ids]
       ∧ ((add_documents documents ids (world s)).1 = inl e →
          (upload_chunks extracted name s).1 = Raise e)).
Proof.
  split; [|split; [|split]].
  - intros w' Hlist. by rewrite (list_pdfs_raise _ _ _ _ Hlist).
  - intros w' Hdown. erewrite stage_failure_raises; [done|].
    apply acquisition_fails. unfold _download_pdf, external.
    by rewrite Hdown.
  - intros pdf_bytes w1 w2 prompt Hdown Hname -> Hagent.
    erewrite stage_failure_raises; [done|].
    eapply chunking_fails; [exact Hname|..].
    + unfold _download_pdf, external. by rewrite Hdown.
    + unfold process_pdf. erewrite bind_Raise; [done|].
      unfold external. cbn [world]. by rewrite Hagent.
  - intros Hall.
    destruct (upload_chunks_spec name extracted s Hall)
      as (h' & D & I & Hrun & _).
    exists D, I. rewrite Hrun. cbn [fst snd trace]. split; [done|].
    by intros ->.
Qed.

End OrchestratorFacts.

(** ** The properties on the scripted collaborators *)

Section Examples.
Import Scenario.

(** C4 as stated fails: a chunk whose [source_file] was set to [""] loses
    that value. *)
Lemma preset_source_file_overwritten :
  ¬ @preset_source_file_kept nat (scripted happy) stored refs "report.pdf".
Proof.
  intros Hkept.
  destruct (Hkept 3%positive empty_tag "") as (c' & Hc' & Hsrc).
  - by repeat constructor.
  - reflexivity.
  - reflexivity.
  - vm_compute in Hc'. injection Hc' as <-. discriminate Hsrc.
Qed.

Lemma upload_chunks_backfill_witness :
  ∃ c', heap upload.2 !! 1%positive = Some c'
        ∧ (source_file untagged = None → source_file c' = Some "report.pdf")
        ∧ (∀ v, source_file untagged = Some v → v ≠ "" →
                source_file c' = Some v).
Proof.
  apply (@upload_chunks_backfill nat (scripted happy)).
  - allocated_here.
  - by repeat constructor.
  - reflexivity.
Defined.

Lemma upload_chunks_overwrites_empty_witness :
  ∃ c', heap upload.2 !! 3%positive = Some c'
        ∧ source_file c' = Some "report.pdf".
Proof.
  apply (@upload_chunks_overwrites_empty nat (scripted happy) _ _ _ _ empty_tag).
  - allocated_here.
  - by repeat constructor.
  - reflexivity.
  - reflexivity.
Defined.

Lemma upload_chunks_frame_witness :
  ∃ c', heap upload.2 !! 1%positive = Some c'
        ∧ same_but_source_file untagged c'
        ∧ (1%positive ∉ refs → c' = untagged).
Proof.
  apply (proj1 (@upload_chunks_frame nat (scripted happy)
                  "report.pdf" refs stored ltac:(allocated_here))).
  reflexivity.
Defined.

Lemma upload_chunks_one_upsert_witness :
  ∃ docs ids,
    trace upload.2 = trace stored ++ [CallAddDocuments docs ids]
    ∧ length ids = length refs.
Proof.
  destruct (@upload_chunks_one_upsert nat (scripted happy)
              "report.pdf" refs stored) as (docs & ids & Htrace & Hlen & _).
  - allocated_here.
  - by exists docs, ids.
Defined.

Lemma doc_id_deterministic_witness :
  ∃ docs ids,
    trace upload.2 = trace stored ++ [CallAddDocuments docs ids]
    ∧ Forall2 (λ l key, ∃ c, heap stored !! l = Some c
                             ∧ key = doc_id "report.pdf" (chunk_id c))
              refs ids.
Proof.
  apply (@doc_id_deterministic nat (scripted happy) "report.pdf" refs stored).
  allocated_here.
Defined.

Lemma list_pdfs_discovers_witness :
  ∃ found,
    (@_list_pdfs nat (scripted happy) manager start).1 = Return found
    ∧ discovered ["a/report.pdf"; "a/notes.txt"; "a/minutes.PDF"] found
    ∧ (∀ name, name ∈ found ↔
         name ∈ ["a/report.pdf"; "a/notes.txt"; "a/minutes.PDF"]
         ∧ ends_in_pdf name)
    ∧ found `sublist_of` ["a/report.pdf"; "a/notes.txt"; "a/minutes.PDF"]
    ∧ ((∀ name, name ∈ ["a/report.pdf"; "a/notes.txt"; "a/minutes.PDF"] →
                ¬ ends_in_pdf name) → found = []).
Proof.
  apply (@list_pdfs_discovers nat (scripted happy) manager start _ 1%nat).
  reflexivity.
Defined.

Lemma process_all_pdfs_order_witness :
  ∃ s2,
    @process_all_pdfs nat (scripted happy) manager start
    = (Return [mkResult "report.pdf" [1; 2]%positive;
               mkResult "minutes.PDF" [3%positive]], s2).
Proof.
  eexists.
  eapply (@process_all_pdfs_order nat (scripted happy) manager start
            ["a/report.pdf"; "a/minutes.PDF"]).
  - apply run_Return. vm_compute. reflexivity.
  - eapply all_succeed_cons; [apply run_Return; vm_compute; reflexivity|].
    eapply all_succeed_cons; [apply run_Return; vm_compute; reflexivity|].
    apply all_succeed_nil.
Defined.

Lemma process_all_pdfs_fail_fast_witness :
  ∃ s3,
    @process_all_pdfs nat (scripted second_fails) manager start
    = (Raise bad_output, s3).
Proof.
  eexists.
  eapply (@process_all_pdfs_fail_fast nat (scripted second_fails) manager
            start ["a/one.pdf"] "a/two.pdf" ["a/three.pdf"]).
  - apply run_Return. vm_compute. reflexivity.
  - eapply all_succeed_cons; [apply run_Return; vm_compute; reflexivity|].
    apply all_succeed_nil.
  - eapply chunking_fails.
    + vm_compute. reflexivity.
    + apply run_Return. vm_compute. reflexivity.
    + apply run_Raise. vm_compute. reflexivity.
Defined.

(** C7 as stated fails: the refused listing surfaces as the bucket's own
    [Forbidden], not as a [DiscoveryError]. *)
Lemma listing_failure_untyped :
  ¬ @listing_failure_typed nat (scripted denied) manager start.
Proof.
  intros Htyped.
  destruct (Htyped forbidden 1%nat eq_refl) as (e' & s' & Hrun & Hclass).
  vm_compute in Hrun. injection Hrun as <- _. discriminate Hclass.
Qed.

Lemma collaborator_exception_escapes_witness :
  (@_list_pdfs nat (scripted denied) manager start).1 = Raise forbidden.
Proof.
  apply (proj1 (@collaborator_exception_escapes nat (scripted denied)
                  manager start "a/report.pdf" [] "report.pdf" forbidden)
               1%nat).
  reflexivity.
Defined.

End Examples.

(** ** The stages of one document, taken apart *)

Section StageFacts.
Context {World : Type} `{!Collaborators World}.
Implicit Types (s : State World) (self : FlowManager).

Lemma external_Raise_inv {A} call (f : World → (exn + A) * World) s e s' :
  external call f s = (Raise e, s') →
  ∃ w, f (world s) = (inl e, w)
       ∧ s' = mkState (heap s) w (trace s ++ [call]).
Proof.
  unfold external. destruct (f (world s)) as [[e'|a] w]; intros Hrun.
  - injection Hrun as -> <-. by exists w.
  - discriminate.
Qed.

Lemma process_pdf_Return_inv pdf_bytes name s locs s' :
  process_pdf pdf_bytes name s = (Return locs, s') →
  ∃ output w,
    agent_run (agent_prompt name pdf_bytes) (world s) = (inr output, w)
    ∧ world s' = w
    ∧ trace s' = trace s ++ [CallAgentRun (agent_prompt name pdf_bytes)]
    ∧ Forall2 (λ l c, heap s' !! l = Some c) locs output
    ∧ Forall (λ l, heap s !! l = None) locs
    ∧ (∀ l c, heap s !! l = Some c → heap s' !! l = Some c).
Proof.
  unfold process_pdf. fold (agent_prompt name pdf_bytes). intros Hrun.
  apply bind_Return_inv in Hrun as (output & s1 & Hagent & Halloc).
  apply external_Return_inv in Hagent as (w & Hagent & ->).
  match type of Halloc with mapM alloc output ?st = _ => set (s1 := st) in * end.
  destruct (mapM_alloc_spec output s1) as (locs' & h' & Hrun & Hheld & Hnew & Hold).
  pose proof (eq_trans (eq_sym Hrun) Halloc) as Heq.
  injection Heq as -> <-. by exists output, w.
Qed.

Lemma process_pdf_Raise_inv pdf_bytes name s e s' :
  process_pdf pdf_bytes name s = (Raise e, s') →
  ∃ w, agent_run (agent_prompt name pdf_bytes) (world s) = (inl e, w)
       ∧ s' = mkState (heap s) w
                      (trace s ++ [CallAgentRun (agent_prompt name pdf_bytes)]).
Proof.
  unfold process_pdf. fold (agent_prompt name pdf_bytes).
  destruct (external_cases (CallAgentRun (agent_prompt name pdf_bytes))
              (agent_run (agent_prompt name pdf_bytes)) s)
    as [[output Hagent] | [e' Hagent]].
  - rewrite (bind_Return _ _ _ _ _ Hagent).
    match goal with |- mapM alloc output ?st = _ → _ =>
      destruct (mapM_alloc_spec output st) as (locs & h' & -> & _) end.
    discriminate.
  - rewrite (bind_Raise _ _ _ _ _ Hagent). intros Heq.
    injection Heq as -> <-.
    apply external_Raise_inv in Hagent as (w & Hagent & Hs).
    exists w. split; [done|]. by rewrite Hs.
Qed.

(** [upload_chunks] on allocated chunks, taken apart by its outcome. *)
Lemma upload_chunks_inv name cs s o s' :
  allocated (heap s) cs →
  upload_chunks cs name s = (o, s') →
  ∃ documents ids,
    o = match (add_documents documents ids (world s)).1 with
        | inl e => Raise e
        | inr _ => Return ()
        end
    ∧ world s' = (add_documents documents ids (world s)).2
    ∧ trace s' = trace s ++ [CallAddDocuments documents ids]
    ∧ length documents = length cs
    ∧ length ids = length cs
    ∧ (∀ l, heap s' !! l = if decide (l ∈ cs)
                           then backfill name <$> heap s !! l
                           else heap s !! l).
Proof.
  intros Hall Hrun.
  destruct (upload_chunks_spec name cs s Hall) as (h' & D & I & Hup & Hh' & HD & HI).
  rewrite Hup in Hrun. injection Hrun as <- <-.
  exists D, I. cbn [world trace heap].
  repeat split; try done; symmetry; by eapply Forall2_length.
Qed.

(** A successful [_process_single_pdf], stage by stage. *)
Lemma process_single_pdf_Return_inv self blob_name s result s' :
  _process_single_pdf self blob_name s = (Return result, s') →
  ∃ pdf_bytes w1 output w2 documents ids,
    last (PyStr.split "/" blob_name) = Some (file_name result)
    ∧ download_as_bytes (bucket_name self) blob_name (world s)
      = (inr pdf_bytes, w1)
    ∧ agent_run (agent_prompt (file_name result) pdf_bytes) w1 = (inr output, w2)
    ∧ (add_documents documents ids w2).1 = inr ()
    ∧ world s' = (add_documents documents ids w2).2
    ∧ trace s' = trace s ++ document_calls self blob_name (file_name result)
                                            pdf_bytes documents ids
    ∧ length documents = length output
    ∧ length ids = length output
    ∧ Forall2 (λ l c, heap s' !! l = Some (backfill (file_name result) c))
              (chunks result) output
    ∧ Forall (λ l, heap s !! l = None) (chunks result)
    ∧ (∀ l c, heap s !! l = Some c → heap s' !! l = Some c).
Proof.
  destruct (last_split "/" blob_name) as (name & Hlast & _).
  unfold _process_single_pdf, getitem_last. rewrite Hlast.
  rewrite (bind_Return _ _ _ name s) by done. intros Hrun.
  apply bind_Return_inv in Hrun as (pdf_bytes & s1 & Hdown & Hrun).
  apply bind_Return_inv in Hrun as (extracted & s2 & Hchunk & Hrun).
  apply bind_Return_inv in Hrun as ([] & s3 & Hup & Hrun).
  injection Hrun as <- <-. cbn [chunks file_name] in *.
  apply external_Return_inv in Hdown as (w1 & Hdown & ->).
  apply process_pdf_Return_inv in Hchunk
    as (output & w2 & Hagent & Hw2 & Htrace2 & Hheld & Hnew & Hold).
  cbn [world heap trace] in *.
  assert (allocated (heap s2) extracted) as Hall
    by (by eapply Forall2_lookup_allocated).
  destruct (upload_chunks_inv _ _ _ _ _ Hall Hup)
    as (documents & ids & Hout & Hw3 & Htrace3 & Hlend & Hleni & Hheap).
  pose proof (Forall2_length _ _ _ Hheld) as Hlen.
  exists pdf_bytes, w1, output, w2, documents, ids.
  rewrite Hw2 in *.
  split; [done|]. split; [done|]. split; [done|]. split.
  { by destruct (add_documents documents ids w2).1 as [e|[]]. }
  split; [done|]. split.
  { rewrite Htrace3, Htrace2. unfold document_calls.
    by rewrite <-!app_assoc. }
  split; [congruence|]. split; [congruence|]. split; [|split; [done|]].
  - eapply Forall2_impl_elem_of; [exact Hheld|].
    intros l c Hin Hl. by rewrite Hheap, decide_True, Hl.
  - intros l c Hl. rewrite Hheap, (Hold _ _ Hl). case_decide as Hin; [|done].
    rewrite Forall_forall in Hnew. specialize (Hnew _ Hin). congruence.
Qed.

End StageFacts.

(** ** Display names and keys of discovered documents *)

Section NameFacts.
Context {World : Type} `{!Collaborators World}.
Implicit Types (s : State World) (self : FlowManager).

(** What follows a ['/'] of a string ends like the string, for an ending
    that holds no ['/']. *)
Lemma suffix_after_slash dir seg stem ext :
  PyStr.contains "/" ext = false →
  dir +:+ String "/" seg = stem +:+ ext →
  ∃ stem', seg = stem' +:+ ext.
Proof.
  intros Hext. revert stem.
  induction dir as [|a dir IH]; intros [|a' stem] Heq.
  - rewrite !str_app_nil_l in Heq. subst ext. cbn in Hext. discriminate.
  - rewrite str_app_nil_l, str_app_cons in Heq. injection Heq as _ ->.
    by exists stem.
  - rewrite str_app_nil_l, str_app_cons in Heq. subst ext.
    cbn [PyStr.contains] in Hext. rewrite contains_app in Hext. cbn in Hext.
    by rewrite !orb_true_r in Hext.
  - rewrite !str_app_cons in Heq. injection Heq as _ Heq. by eapply IH.
Qed.

Lemma ends_in_pdf_last_segment path seg :
  is_last_segment path seg → ends_in_pdf path → ends_in_pdf seg.
Proof.
  intros [_ [-> | [dir ->]]] Hpdf; [done|].
  destruct Hpdf as (stem & p & d & f & Heq & Hp & Hd & Hf).
  apply suffix_after_slash in Heq as [stem' ->].
  - by exists stem', p, d, f.
  - by destruct Hp as [-> | ->], Hd as [-> | ->], Hf as [-> | ->].
Qed.

Lemma ends_in_pdf_not_empty name : ends_in_pdf name → name ≠ "".
Proof. intros (stem & p & d & f & -> & _). by destruct stem. Qed.

Lemma list_pdfs_Return_inv self s pdf_files s1 :
  _list_pdfs self s = (Return pdf_files, s1) →
  Forall ends_in_pdf pdf_files
  ∧ heap s1 = heap s
  ∧ trace s1 = trace s ++ [CallListBlobs (bucket_name self) (folder_path self)].
Proof.
  unfold _list_pdfs. intros Hrun.
  apply bind_Return_inv in Hrun as (blobs & s0 & Hlist & Hret).
  apply external_Return_inv in Hlist as (w & _ & ->).
  injection Hret as <- <-. split; [|done].
  apply Forall_forall. intros name [Hname _]%list_elem_of_filter.
  by apply endswith_lower_pdf.
Qed.

(** X1: every identifier that [_list_pdfs] returns has a display name: the
    [split("/")[-1]] of [_process_single_pdf] is defined on it, is not
    empty and itself ends in [.pdf], in whatever case. *)
Theorem discovered_display_name self s pdf_files s1 blob_name :
  _list_pdfs self s = (Return pdf_files, s1) →
  blob_name ∈ pdf_files →
  ∃ name, last (PyStr.split "/" blob_name) = Some name
          ∧ ends_in_pdf name
          ∧ name ≠ "".
Proof.
  intros [Hpdf _]%list_pdfs_Return_inv Hin.
  rewrite Forall_forall in Hpdf. specialize (Hpdf _ Hin).
  destruct (last_split "/" blob_name) as (name & Hlast & Hno & Hpath).
  exists name. split; [done|].
  assert (ends_in_pdf name) as Hname
    by (by apply (ends_in_pdf_last_segment blob_name)).
  split; [done|]. by apply ends_in_pdf_not_empty.
Qed.

Lemma flatten_char_not c x :
  (x = "/" ∨ x = ".")%char → flatten_char c ≠ x.
Proof.
  intros Hx. unfold flatten_char. case_decide as Hc.
  - by destruct Hx as [-> | ->].
  - intros ->. done.
Qed.

Lemma flatten_contains x (t : string) :
  (x = "/" ∨ x = ".")%char → PyStr.contains x (flatten t) = false.
Proof.
  intros Hx. induction t as [|c t IH]; [done|].
  unfold flatten in *. cbn [PyStr.map_chars PyStr.contains].
  rewrite IH, orb_false_r. apply bool_decide_eq_false.
  by apply flatten_char_not.
Qed.

(** X9: a storage key holds neither a ['/'] nor a ['.'], whatever the
    display name and the chunk id. *)
Theorem doc_id_flat name i :
  PyStr.contains "/" (doc_id name i) = false
  ∧ PyStr.contains "." (doc_id name i) = false.
Proof. rewrite doc_id_flatten. split; apply flatten_contains; auto. Qed.

End NameFacts.

(** ** One document, from download to upsert *)

Section DocumentFacts.
Context {World : Type} `{!Collaborators World}.
Implicit Types (s : State World) (self : FlowManager).

Lemma backfill_source_file name c : source_file (backfill name c) ≠ None.
Proof. unfold backfill; cbn. by destruct (source_file c) as [[|a v]|]. Qed.

Lemma backfill_tagged name c :
  name ≠ "" → truthy (source_file (backfill name c)) = true.
Proof.
  intros Hname. unfold backfill; cbn.
  destruct (source_file c) as [[|a v]|]; cbn; by destruct name.
Qed.

(** X2: after a successful [_process_single_pdf] the result holds one chunk
    per chunk of the agent's answer, in the agent's order, so that
    [total_chunks] is the size of that answer; each is the agent's chunk
    with [source_file] resolved against the display name, hence never
    [None]; and every object that was in the store before is as it was. *)
Theorem process_single_pdf_result self blob_name s result s' :
  _process_single_pdf self blob_name s = (Return result, s') →
  ∃ pdf_bytes w1 output w2,
    download_as_bytes (bucket_name self) blob_name (world s)
    = (inr pdf_bytes, w1)
    ∧ agent_run (agent_prompt (file_name result) pdf_bytes) w1 = (inr output, w2)
    ∧ total_chunks result = length output
    ∧ Forall2 (λ l c, heap s' !! l = Some (backfill (file_name result) c))
              (chunks result) output
    ∧ Forall (λ l, ∃ c, heap s' !! l = Some c ∧ source_file c ≠ None)
             (chunks result)
    ∧ (∀ l c, heap s !! l = Some c → heap s' !! l = Some c).
Proof.
  intros Hrun.
  apply process_single_pdf_Return_inv in Hrun
    as (pdf_bytes & w1 & output & w2 & documents & ids & _ & Hdown & Hagent
        & _ & _ & _ & _ & _ & Hheld & _ & Hold).
  exists pdf_bytes, w1, output, w2.
  split; [done|]. split; [done|]. split; [by eapply Forall2_length|].
  split; [done|]. split; [|done].
  apply Forall_forall. intros l Hin.
  apply list_elem_of_lookup in Hin as [i Hi].
  destruct (Forall2_lookup_l _ _ _ _ _ Hheld Hi) as (c & _ & Hl).
  exists (backfill (file_name result) c). split; [done|].
  apply backfill_source_file.
Qed.

(** X3: a successful [_process_single_pdf] makes exactly three calls, in
    this order: the download of the blob from the configured bucket, the
    agent run on the display name and the very bytes downloaded, and one
    upsert with as many records and keys as the result has chunks. *)
Theorem process_single_pdf_calls self blob_name s result s' :
  _process_single_pdf self blob_name s = (Return result, s') →
  ∃ pdf_bytes w1 documents ids,
    download_as_bytes (bucket_name self) blob_name (world s)
    = (inr pdf_bytes, w1)
    ∧ trace s' = trace s ++ document_calls self blob_name (file_name result)
                                            pdf_bytes documents ids
    ∧ length documents = total_chunks result
    ∧ length ids = total_chunks result.
Proof.
  intros Hrun.
  apply process_single_pdf_Return_inv in Hrun
    as (pdf_bytes & w1 & output & w2 & documents & ids & _ & Hdown & _
        & _ & _ & Htrace & Hlend & Hleni & Hheld & _).
  exists pdf_bytes, w1, documents, ids.
  pose proof (Forall2_length _ _ _ Hheld) as Hlen. unfold total_chunks.
  split; [done|]. split; [done|]. split; congruence.
Qed.

Lemma download_pdf_raise self blob_name s e w' :
  download_as_bytes (bucket_name self) blob_name (world s) = (inl e, w') →
  _download_pdf self blob_name s
  = (Raise e, mkState (heap s) w'
                      (trace s ++ [CallDownload (bucket_name self) blob_name])).
Proof. intros Hdown. unfold _download_pdf, external. by rewrite Hdown. Qed.

Lemma download_pdf_return self blob_name s pdf_bytes w' :
  download_as_bytes (bucket_name self) blob_name (world s) = (inr pdf_bytes, w') →
  _download_pdf self blob_name s
  = (Return pdf_bytes,
     mkState (heap s) w'
             (trace s ++ [CallDownload (bucket_name self) blob_name])).
Proof. intros Hdown. unfold _download_pdf, external. by rewrite Hdown. Qed.

(** X4: when the download fails, [_process_single_pdf] raises the
    download's exception with nothing but the download call made: the agent
    is not run, nothing is upserted, and the store is untouched. *)
Theorem download_failure_stops self blob_name s e w' :
  download_as_bytes (bucket_name self) blob_name (world s) = (inl e, w') →
  _process_single_pdf self blob_name s
  = (Raise e, mkState (heap s) w'
                      (trace s ++ [CallDownload (bucket_name self) blob_name])).
Proof.
  intros Hdown. apply stage_failure_raises, acquisition_fails.
  by apply download_pdf_raise.
Qed.

(** X5: when the agent fails on the downloaded bytes, [_process_single_pdf]
    raises the agent's exception after exactly the download and the agent
    call: nothing is upserted, and no chunk object enters the store. *)
Theorem chunking_failure_stops self blob_name name s pdf_bytes w1 e w2 :
  last (PyStr.split "/" blob_name) = Some name →
  download_as_bytes (bucket_name self) blob_name (world s)
  = (inr pdf_bytes, w1) →
  agent_run (agent_prompt name pdf_bytes) w1 = (inl e, w2) →
  _process_single_pdf self blob_name s
  = (Raise e,
     mkState (heap s) w2
             (trace s ++ [CallDownload (bucket_name self) blob_name;
                          CallAgentRun (agent_prompt name pdf_bytes)])).
Proof.
  intros Hname Hdown Hagent.
  apply stage_failure_raises.
  eapply chunking_fails; [exact Hname|by apply download_pdf_return|].
  unfold process_pdf. fold (agent_prompt name pdf_bytes).
  erewrite bind_Raise; [|unfold external; cbn [world]; by rewrite Hagent].
  cbn [heap trace]. by rewrite <-app_assoc.
Qed.

(** X8: a document in which the agent finds no chunk is processed like any
    other: its result has no chunks, and an upsert with no record and no
    key is still sent to the vector store. *)
Theorem process_single_pdf_no_chunks
    self blob_name name s pdf_bytes w1 w2 w3 :
  last (PyStr.split "/" blob_name) = Some name →
  download_as_bytes (bucket_name self) blob_name (world s)
  = (inr pdf_bytes, w1) →
  agent_run (agent_prompt name pdf_bytes) w1 = (inr [], w2) →
  add_documents [] [] w2 = (inr (), w3) →
  _process_single_pdf self blob_name s
  = (Return (mkResult name []),
     mkState (heap s) w3
             (trace s ++ document_calls self blob_name name pdf_bytes [] [])).
Proof.
  intros Hname Hdown Hagent Hadd.
  unfold _process_single_pdf, getitem_last. rewrite Hname.
  rewrite (bind_Return _ _ _ name s) by done.
  rewrite (bind_Return _ _ _ _ _ (download_pdf_return _ _ _ _ _ Hdown)).
  unfold process_pdf. fold (agent_prompt name pdf_bytes).
  unfold mbind at 1, M_bind. unfold mbind at 1, M_bind.
  unfold external at 1. cbn [world heap trace]. rewrite Hagent.
  cbn [mapM]. unfold mret at 1, M_ret. cbn [chunks].
  unfold upload_chunks. cbn [upload_loop].
  unfold mbind at 1, M_bind. unfold mbind at 1, M_bind.
  unfold mret at 1, M_ret. unfold external. cbn [world heap trace].
  rewrite Hadd. unfold mret, M_ret, document_calls.
  by rewrite <-!app_assoc.
Qed.

End DocumentFacts.

(** ** More on [upload_chunks] *)

Section UploadMore.
Context {World : Type} `{!Collaborators World}.
Implicit Types (s : State World) (c : DocumentChunk) (l : loc).

(** X6: the chunks are backfilled before the upsert is sent, so when the
    upsert fails, [upload_chunks] raises the vector store's exception and
    the listed chunks carry the resolved [source_file] all the same. *)
Theorem upload_failure_keeps_backfill name cs s e s' :
  allocated (heap s) cs →
  upload_chunks cs name s = (Raise e, s') →
  (∃ documents ids,
     (add_documents documents ids (world s)).1 = inl e
     ∧ trace s' = trace s ++ [CallAddDocuments documents ids])
  ∧ (∀ l c, l ∈ cs → heap s !! l = Some c →
            heap s' !! l = Some (backfill name c)).
Proof.
  intros Hall Hrun.
  destruct (upload_chunks_inv _ _ _ _ _ Hall Hrun)
    as (documents & ids & Hout & _ & Htrace & _ & _ & Hheap).
  split.
  - exists documents, ids. split; [|done].
    destruct (add_documents documents ids (world s)).1 as [e'|[]];
      [congruence|discriminate].
  - intros l c Hin Hc. by rewrite Hheap, decide_True, Hc.
Qed.

Lemma Forall2_unique {A B} (P Q : A → B → Prop) xs ys zs :
  Forall2 P xs ys → Forall2 Q xs zs →
  (∀ x y z, x ∈ xs → P x y → Q x z → y = z) → ys = zs.
Proof.
  intros HP. revert zs.
  induction HP as [|x y xs ys Hxy _ IH]; intros zs HQ Huniq.
  - by inversion HQ.
  - inversion HQ as [|? z ? zs' Hxz HQ']; subst. f_equal.
    + eapply Huniq; [by left|done..].
    + apply IH; [done|]. intros x' y' z' Hin. apply Huniq. by right.
Qed.

(** X7: uploading the same chunks under the same name a second time changes
    no chunk and sends the very same records under the very same keys. *)
Theorem upload_chunks_twice name cs s :
  allocated (heap s) cs →
  ∃ documents ids,
    trace (upload_chunks cs name s).2
    = trace s ++ [CallAddDocuments documents ids]
    ∧ trace (upload_chunks cs name (upload_chunks cs name s).2).2
      = trace (upload_chunks cs name s).2 ++ [CallAddDocuments documents ids]
    ∧ heap (upload_chunks cs name (upload_chunks cs name s).2).2
      = heap (upload_chunks cs name s).2.
Proof.
  intros Hall.
  destruct (upload_chunks_spec name cs s Hall)
    as (h1 & D1 & I1 & Hrun1 & Hh1 & HD1 & HI1).
  rewrite Hrun1. cbn [snd].
  match goal with |- context [upload_chunks cs name ?st] => set (s1 := st) end.
  assert (allocated (heap s1) cs) as Hall1.
  { apply Forall_forall. intros l Hin.
    unfold allocated in Hall. rewrite Forall_forall in Hall.
    destruct (Hall l Hin) as [c Hc]. cbn.
    rewrite Hh1, decide_True, Hc by done. by eexists. }
  destruct (upload_chunks_spec name cs s1 Hall1)
    as (h2 & D2 & I2 & Hrun2 & Hh2 & HD2 & HI2).
  rewrite Hrun2. cbn [snd trace heap] in *.
  assert (D2 = D1) as ->.
  { eapply (Forall2_unique _ _ _ _ _ HD2 HD1).
    intros l d2 d1 Hin (c2 & Hc2 & ->) (c1 & Hc1 & ->).
    rewrite Hh1, decide_True, Hc1 in Hc2 by done. injection Hc2 as <-.
    by rewrite backfill_idemp. }
  assert (I2 = I1) as ->.
  { eapply (Forall2_unique _ _ _ _ _ HI2 HI1).
    intros l i2 i1 Hin (c2 & Hc2 & ->) (c1 & Hc1 & ->).
    rewrite Hh1, decide_True, Hc1 in Hc2 by done. by injection Hc2 as <-. }
  exists D1, I1. split; [done|]. split; [done|].
  apply map_eq. intros l. rewrite Hh2, Hh1. case_decide; [|done].
  destruct (heap s !! l) as [c|]; [|done]. cbn. by rewrite backfill_idemp.
Qed.

(** X10: when the listed chunks carry pairwise different chunk ids, the keys
    of the upsert are pairwise different: no record of the batch overwrites
    another. *)
Theorem upload_ids_distinct name cs s documents ids :
  allocated (heap s) cs →
  distinct_chunk_ids (heap s) cs →
  trace (upload_chunks cs name s).2
  = trace s ++ [CallAddDocuments documents ids] →
  NoDup ids.
Proof.
  intros Hall Hdistinct Htrace.
  destruct (upload_chunks_spec name cs s Hall)
    as (h1 & D & I & Hrun & _ & _ & HI).
  rewrite Hrun in Htrace. cbn [snd trace] in Htrace.
  apply app_inv_head in Htrace. injection Htrace as _ <-.
  apply NoDup_alt. intros i j key Hi Hj.
  destruct (Forall2_lookup_r _ _ _ _ _ HI Hi) as (li & Hli & ci & Hci & ->).
  destruct (Forall2_lookup_r _ _ _ _ _ HI Hj) as (lj & Hlj & cj & Hcj & Heq).
  apply doc_id_eq_inv in Heq as [_ Heq].
  by eapply (Hdistinct i j li lj ci cj).
Qed.

End UploadMore.

(** ** Whole runs *)

Section RunFacts.
Context {World : Type} `{!Collaborators World}.
Implicit Types (s : State World) (self : FlowManager).

(** X11: when the listing holds no name ending in [.pdf],
    [process_all_pdfs] returns the empty list after the listing call alone:
    nothing is downloaded, chunked or upserted. *)
Theorem process_all_pdfs_nothing_found self s listing w' :
  list_blobs (bucket_name self) (folder_path self) (world s) = (inr listing, w') →
  (∀ name, name ∈ listing → ¬ ends_in_pdf name) →
  process_all_pdfs self s
  = (Return [],
     mkState (heap s) w'
             (trace s ++ [CallListBlobs (bucket_name self) (folder_path self)])).
Proof.
  intros Hlist Hnone. unfold process_all_pdfs.
  rewrite (bind_Return _ _ _ _ _ (list_pdfs_run _ _ _ _ Hlist)).
  rewrite (discovered_none _ _ (filter_discovered listing) Hnone).
  by rewrite bool_decide_eq_true_2.
Qed.

(** X12: when the listing call fails, [process_all_pdfs] raises the
    listing's exception after that call alone. *)
Theorem process_all_pdfs_listing_fails self s e w' :
  list_blobs (bucket_name self) (folder_path self) (world s) = (inl e, w') →
  process_all_pdfs self s
  = (Raise e,
     mkState (heap s) w'
             (trace s ++ [CallListBlobs (bucket_name self) (folder_path self)])).
Proof.
  intros Hlist. unfold process_all_pdfs.
  by rewrite (bind_Raise _ _ _ _ _ (list_pdfs_raise _ _ _ _ Hlist)).
Qed.

Lemma stage_failure_collaborator self blob_name s e s' :
  stage_failure self blob_name s e s' → collaborator_raised e.
Proof.
  intros [Hdown | name pdf_bytes s1 _ _ Hchunk
                | name pdf_bytes s1 extracted s2 _ _ Hchunk Hup].
  - apply external_Raise_inv in Hdown as (w & Hdown & _).
    right; left. eexists _, _, _. by rewrite Hdown.
  - apply process_pdf_Raise_inv in Hchunk as (w & Hagent & _).
    right; right; left. eexists _, _. by rewrite Hagent.
  - apply process_pdf_Return_inv in Hchunk
      as (output & w & _ & _ & _ & Hheld & _).
    assert (allocated (heap s2) extracted) as Hall
      by (by eapply Forall2_lookup_allocated).
    destruct (upload_chunks_inv _ _ _ _ _ Hall Hup)
      as (documents & ids & Hout & _).
    right; right; right. exists documents, ids, (world s2).
    destruct (add_documents documents ids (world s2)).1 as [e'|[]];
      [congruence|discriminate].
Qed.

Lemma process_loop_outcome self pdf_files : ∀ acc s,
  (∃ results s', process_loop self pdf_files acc s = (Return results, s'))
  ∨ (∃ e s', process_loop self pdf_files acc s = (Raise e, s')
             ∧ collaborator_raised e).
Proof.
  induction pdf_files as [|blob_name rest IH]; intros acc s;
    cbn [process_loop].
  - left. by eexists _, _.
  - destruct (process_single_pdf_cases self blob_name s)
      as [(result & s1 & Hone) | (e & s1 & Hfail)].
    + rewrite (bind_Return _ _ _ _ _ Hone). apply IH.
    + right. exists e, s1. split; [|by eapply stage_failure_collaborator].
      by rewrite (bind_Raise _ _ _ _ _ (stage_failure_raises _ _ _ _ _ Hfail)).
Qed.

(** X13: [process_all_pdfs] either returns a list or raises an exception
    that one of the collaborators answered with: it raises none of its own
    (the [split("/")[-1]] cannot fail) and never stops on a reference
    without an object. *)
Theorem process_all_pdfs_outcome self s :
  (∃ results s', process_all_pdfs self s = (Return results, s'))
  ∨ (∃ e s', process_all_pdfs self s = (Raise e, s')
             ∧ collaborator_raised e).
Proof.
  unfold process_all_pdfs, _list_pdfs.
  destruct (external_cases
              (CallListBlobs (bucket_name self) (folder_path self))
              (list_blobs (bucket_name self) (folder_path self)) s)
    as [[blobs Hlist] | [e Hlist]].
  - erewrite bind_Return; [|by erewrite bind_Return].
    case_bool_decide; [left; by eexists _, _|apply process_loop_outcome].
  - right. eexists e, _. split.
    + erewrite bind_Raise; [done|]. by erewrite bind_Raise.
    + apply external_Raise_inv in Hlist as (w & Hlist & _).
      left. eexists _, _, _. by rewrite Hlist.
Qed.

Lemma all_succeed_calls self pdf_files s results s' :
  all_succeed self pdf_files s results s' →
  ∃ per_document,
    trace s' = trace s ++ concat per_document
    ∧ Forall2 (calls_of_document self) pdf_files per_document.
Proof.
  induction 1 as [s|blob_name rest s result s1 results s2 Hone _ IH].
  - exists []. cbn. by rewrite app_nil_r.
  - destruct IH as (per_document & Htrace & Hcalls).
    apply process_single_pdf_Return_inv in Hone
      as (pdf_bytes & w1 & output & w2 & documents & ids & Hname & _ & _
          & _ & _ & Htrace1 & _).
    exists (document_calls self blob_name (file_name result) pdf_bytes
              documents ids :: per_document).
    split.
    + cbn [concat]. by rewrite Htrace, Htrace1, <-app_assoc.
    + constructor; [|done]. by exists (file_name result), pdf_bytes, documents, ids.
Qed.

(** X14: a run that returns has made one listing call and then, document by
    document in the order of discovery, a download, an agent run and an
    upsert: the calls of one document are over before those of the next
    begin, and nothing else is called. *)
Theorem process_all_pdfs_calls_in_order self s results s' :
  process_all_pdfs self s = (Return results, s') →
  ∃ pdf_files per_document,
    (_list_pdfs self s).1 = Return pdf_files
    ∧ trace s'
      = trace s ++ CallListBlobs (bucket_name self) (folder_path self)
                   :: concat per_document
    ∧ Forall2 (calls_of_document self) pdf_files per_document.
Proof.
  intros (pdf_files & s1 & Hlist & Hall)%process_all_pdfs_Return_inv.
  destruct (all_succeed_calls _ _ _ _ _ Hall) as (per_document & Htrace & Hcalls).
  exists pdf_files, per_document. rewrite Hlist. split; [done|]. split; [|done].
  apply list_pdfs_Return_inv in Hlist as (_ & _ & Htrace1).
  by rewrite Htrace, Htrace1, <-app_assoc.
Qed.

Lemma all_succeed_tagged self pdf_files s results s' :
  all_succeed self pdf_files s results s' →
  Forall ends_in_pdf pdf_files →
  Forall (tagged_result (heap s')) results
  ∧ (∀ l c, heap s !! l = Some c → heap s' !! l = Some c).
Proof.
  induction 1 as [s|blob_name rest s result s1 results s2 Hone _ IH];
    intros Hpdf.
  - split; [constructor|done].
  - apply Forall_cons in Hpdf as [Hblob Hrest].
    destruct (IH Hrest) as [Htagged Hkeep].
    pose proof (process_single_pdf_file_name _ _ _ _ _ Hone) as [_ Hseg].
    assert (file_name result ≠ "") as Hname.
    { by eapply ends_in_pdf_not_empty, ends_in_pdf_last_segment. }
    apply process_single_pdf_Return_inv in Hone
      as (pdf_bytes & w1 & output & w2 & documents & ids & _ & _ & _
          & _ & _ & _ & _ & _ & Hheld & _ & Hold).
    split; [|by auto]. constructor; [|done].
    apply Forall_forall. intros l Hin.
    apply list_elem_of_lookup in Hin as [i Hi].
    destruct (Forall2_lookup_l _ _ _ _ _ Hheld Hi) as (c & _ & Hl).
    exists (backfill (file_name result) c).
    split; [by apply Hkeep|by apply backfill_tagged].
Qed.

(** X15: when [process_all_pdfs] returns, every chunk of every result
    carries a non-empty [source_file] (its own, or the display name of its
    document), also the chunks of the documents processed first: later
    documents leave them alone. *)
Theorem process_all_pdfs_tags_every_chunk self s results s' :
  process_all_pdfs self s = (Return results, s') →
  Forall (tagged_result (heap s')) results.
Proof.
  intros (pdf_files & s1 & Hlist & Hall)%process_all_pdfs_Return_inv.
  apply list_pdfs_Return_inv in Hlist as (Hpdf & _).
  by apply (all_succeed_tagged _ _ _ _ _ Hall).
Qed.

End RunFacts.

(** ** Runs that fail part-way *)

Section PartialRuns.
Context {World : Type} `{!Collaborators World}.
Implicit Types (s : State World) (self : FlowManager).

Lemma stage_failure_trace self blob_name s e s' :
  stage_failure self blob_name s e s' →
  ∃ name pdf_bytes documents ids tail,
    trace s' = trace s ++ tail
    ∧ tail ≠ []
    ∧ tail `prefix_of` document_calls self blob_name name pdf_bytes documents ids.
Proof.
  intros [Hdown | name pdf_bytes s1 _ Hdown Hchunk
                | name pdf_bytes s1 extracted s2 _ Hdown Hchunk Hup].
  - apply external_Raise_inv in Hdown as (w & _ & ->).
    exists "", [], [], [], [CallDownload (bucket_name self) blob_name].
    split; [done|]. split; [done|]. by eexists.
  - apply external_Return_inv in Hdown as (w1 & _ & ->).
    apply process_pdf_Raise_inv in Hchunk as (w2 & _ & ->).
    exists name, pdf_bytes, [], [],
      [CallDownload (bucket_name self) blob_name;
       CallAgentRun (agent_prompt name pdf_bytes)].
    cbn [trace]. split; [by rewrite <-app_assoc|]. split; [done|]. by eexists.
  - apply external_Return_inv in Hdown as (w1 & _ & ->).
    apply process_pdf_Return_inv in Hchunk
      as (output & w2 & _ & _ & Htrace2 & Hheld & _).
    assert (allocated (heap s2) extracted) as Hall
      by (by eapply Forall2_lookup_allocated).
    destruct (upload_chunks_inv _ _ _ _ _ Hall Hup)
      as (documents & ids & _ & _ & Htrace3 & _).
    exists name, pdf_bytes, documents, ids,
      (document_calls self blob_name name pdf_bytes documents ids).
    split; [|split; [done|by exists []]].
    rewrite Htrace3, Htrace2. cbn [trace]. unfold document_calls.
    by rewrite <-!app_assoc.
Qed.

(** X16: when a document fails after others succeeded, the run raises with
    the earlier documents fully processed and not undone: the calls made
    are the listing, the three calls of each earlier document in order
    (their upserts included), and an initial part of the three calls of the
    failing document; no call concerns a later document. *)
Theorem process_all_pdfs_partial_run
    self s pre blob_name post s1 results s2 e s3 :
  _list_pdfs self s = (Return (pre ++ blob_name :: post), s1) →
  all_succeed self pre s1 results s2 →
  stage_failure self blob_name s2 e s3 →
  ∃ per_document name pdf_bytes documents ids tail,
    (process_all_pdfs self s).1 = Raise e
    ∧ trace (process_all_pdfs self s).2
      = trace s ++ CallListBlobs (bucket_name self) (folder_path self)
                   :: concat per_document ++ tail
    ∧ Forall2 (calls_of_document self) pre per_document
    ∧ tail ≠ []
    ∧ tail `prefix_of` document_calls self blob_name name pdf_bytes documents ids.
Proof.
  intros Hlist Hpre Hfail.
  destruct (all_succeed_calls _ _ _ _ _ Hpre) as (per_document & Htrace2 & Hcalls).
  destruct (stage_failure_trace _ _ _ _ _ Hfail)
    as (name & pdf_bytes & documents & ids & tail & Htrace3 & Hne & Hprefix).
  exists per_document, name, pdf_bytes, documents, ids, tail.
  assert (process_all_pdfs self s = (Raise e, s3)) as ->.
  { unfold process_all_pdfs. rewrite (bind_Return _ _ _ _ _ Hlist).
    rewrite bool_decide_eq_false_2 by (by destruct pre).
    eapply process_loop_stage_failure; [done|].
    by apply stage_failure_raises. }
  cbn [fst snd]. split; [done|]. split; [|done].
  apply list_pdfs_Return_inv in Hlist as (_ & _ & Htrace1).
  rewrite Htrace3, Htrace2, Htrace1. by rewrite <-!app_assoc.
Qed.

End PartialRuns.

(** ** The further properties on the scripted collaborators *)

Section MoreExamples.
Import Scenario.

Lemma discovered_display_name_witness :
  ∃ name, last (PyStr.split "/" "a/minutes.PDF") = Some name
          ∧ ends_in_pdf name
          ∧ name ≠ "".
Proof.
  eapply (@discovered_display_name nat (scripted happy) manager start).
  - apply run_Return. vm_compute. reflexivity.
  - apply elem_of_cons. right. apply elem_of_cons. by left.
Defined.

Lemma process_single_pdf_result_witness :
  ∃ output,
    total_chunks report_result = length output
    ∧ Forall2 (λ l c, heap report_run.2 !! l = Some (backfill "report.pdf" c))
              (chunks report_result) output.
Proof.
  destruct (@process_single_pdf_result nat (scripted happy) manager
              "a/report.pdf" start report_result report_run.2)
    as (pdf_bytes & w1 & output & w2 & _ & _ & Hlen & Hheld & _).
  - apply run_Return. vm_compute. reflexivity.
  - by exists output.
Defined.

Lemma process_single_pdf_calls_witness :
  ∃ pdf_bytes documents ids,
    trace report_run.2
    = trace start ++ document_calls manager "a/report.pdf" "report.pdf"
                                    pdf_bytes documents ids.
Proof.
  destruct (@process_single_pdf_calls nat (scripted happy) manager
              "a/report.pdf" start report_result report_run.2)
    as (pdf_bytes & w1 & documents & ids & _ & Htrace & _).
  - apply run_Return. vm_compute. reflexivity.
  - by exists pdf_bytes, documents, ids.
Defined.

Lemma download_failure_stops_witness :
  @_process_single_pdf nat (scripted download_fails) manager "a/report.pdf" start
  = (Raise not_found,
     mkState (heap start) 1%nat
             (trace start ++ [CallDownload (bucket_name manager) "a/report.pdf"])).
Proof.
  apply (@download_failure_stops nat (scripted download_fails)).
  reflexivity.
Defined.

Lemma chunking_failure_stops_witness :
  @_process_single_pdf nat (scripted second_fails) manager "a/two.pdf" start
  = (Raise bad_output,
     mkState (heap start) 2%nat
             (trace start ++ [CallDownload (bucket_name manager) "a/two.pdf";
                              CallAgentRun (agent_prompt "two.pdf" pdf_bytes)])).
Proof.
  apply (@chunking_failure_stops nat (scripted second_fails) manager
           "a/two.pdf" "two.pdf" start pdf_bytes 1%nat bad_output 2%nat).
  - vm_compute. reflexivity.
  - reflexivity.
  - vm_compute. reflexivity.
Defined.

Lemma upload_failure_keeps_backfill_witness :
  refused_upload.1 = Raise unavailable
  ∧ heap refused_upload.2 !! 1%positive = Some (backfill "report.pdf" untagged).
Proof.
  split; [vm_compute; reflexivity|].
  apply (proj2 (@upload_failure_keeps_backfill nat (scripted upsert_fails)
                  "report.pdf" refs stored unavailable refused_upload.2
                  ltac:(allocated_here)
                  ltac:(apply run_Raise; vm_compute; reflexivity))).
  - apply elem_of_cons. by left.
  - reflexivity.
Defined.

Lemma upload_chunks_twice_witness :
  ∃ documents ids,
    trace upload.2 = trace stored ++ [CallAddDocuments documents ids]
    ∧ trace (@upload_chunks nat (scripted happy) refs "report.pdf" upload.2).2
      = trace upload.2 ++ [CallAddDocuments documents ids]
    ∧ heap (@upload_chunks nat (scripted happy) refs "report.pdf" upload.2).2
      = heap upload.2.
Proof.
  apply (@upload_chunks_twice nat (scripted happy) "report.pdf" refs stored).
  allocated_here.
Defined.

Lemma process_single_pdf_no_chunks_witness :
  @_process_single_pdf nat (scripted no_chunks) manager "a/report.pdf" start
  = (Return (mkResult "report.pdf" []),
     mkState (heap start) 3%nat
             (trace start ++ document_calls manager "a/report.pdf" "report.pdf"
                                            pdf_bytes [] [])).
Proof.
  apply (@process_single_pdf_no_chunks nat (scripted no_chunks) manager
           "a/report.pdf" "report.pdf" start pdf_bytes 1%nat 2%nat 3%nat).
  - vm_compute. reflexivity.
  - reflexivity.
  - reflexivity.
  - reflexivity.
Defined.

Lemma upload_ids_distinct_witness :
  NoDup ["report_pdf_0"; "report_pdf_1"; "report_pdf_2"].
Proof.
  eapply (@upload_ids_distinct nat (scripted happy) "report.pdf"
            [1; 2; 3]%positive stored).
  - allocated_here.
  - intros i j li lj ci cj Hi Hj Hci Hcj Hid.
    destruct i as [|[|[|i]]]; try discriminate Hi;
      destruct j as [|[|[|j]]]; try discriminate Hj;
      injection Hi as <-; injection Hj as <-;
      vm_compute in Hci, Hcj; injection Hci as <-; injection Hcj as <-;
      first [reflexivity | discriminate Hid].
  - vm_compute. reflexivity.
Defined.

Lemma process_all_pdfs_nothing_found_witness :
  @process_all_pdfs nat (scripted no_pdfs) manager start
  = (Return [],
     mkState (heap start) 1%nat
             (trace start ++ [CallListBlobs (bucket_name manager)
                                            (folder_path manager)])).
Proof.
  apply (@process_all_pdfs_nothing_found nat (scripted no_pdfs) manager start
           ["a/notes.txt"; "a/readme.md"; "a/pdf"]).
  - reflexivity.
  - intros name Hin Hpdf. apply endswith_lower_pdf in Hpdf.
    rewrite !elem_of_cons in Hin.
    destruct Hin as [-> | [-> | [-> | Hin]]];
      [vm_compute in Hpdf; discriminate Hpdf..|].
    by apply elem_of_nil in Hin.
Defined.

Lemma process_all_pdfs_listing_fails_witness :
  @process_all_pdfs nat (scripted denied) manager start
  = (Raise forbidden,
     mkState (heap start) 1%nat
             (trace start ++ [CallListBlobs (bucket_name manager)
                                            (folder_path manager)])).
Proof.
  apply (@process_all_pdfs_listing_fails nat (scripted denied)).
  reflexivity.
Defined.

Lemma process_all_pdfs_calls_in_order_witness :
  ∃ per_document,
    trace happy_run.2
    = trace start ++ CallListBlobs (bucket_name manager) (folder_path manager)
                     :: concat per_document
    ∧ Forall2 (calls_of_document manager)
              ["a/report.pdf"; "a/minutes.PDF"] per_document.
Proof.
  destruct (@process_all_pdfs_calls_in_order nat (scripted happy) manager
              start happy_results happy_run.2)
    as (pdf_files & per_document & Hlist & Htrace & Hcalls).
  - apply run_Return. vm_compute. reflexivity.
  - vm_compute in Hlist. injection Hlist as <-. by exists per_document.
Defined.

Lemma process_all_pdfs_tags_every_chunk_witness :
  Forall (tagged_result (heap happy_run.2)) happy_results.
Proof.
  apply (@process_all_pdfs_tags_every_chunk nat (scripted happy) manager start).
  apply run_Return. vm_compute. reflexivity.
Defined.

Lemma process_all_pdfs_partial_run_witness :
  ∃ per_document tail,
    failing_run.1 = Raise bad_output
    ∧ trace failing_run.2
      = trace start ++ CallListBlobs (bucket_name manager) (folder_path manager)
                       :: concat per_document ++ tail
    ∧ Forall2 (calls_of_document manager) ["a/one.pdf"] per_document
    ∧ tail ≠ [].
Proof.
  edestruct (@process_all_pdfs_partial_run nat (scripted second_fails) manager
               start ["a/one.pdf"] "a/two.pdf" ["a/three.pdf"])
    as (per_document & name & pdf_bytes & documents & ids & tail
        & Hraise & Htrace & Hcalls & Hne & _).
  - apply run_Return. vm_compute. reflexivity.
  - eapply all_succeed_cons; [apply run_Return; vm_compute; reflexivity|].
    apply all_succeed_nil.
  - eapply chunking_fails.
    + vm_compute. reflexivity.
    + apply run_Return. vm_compute. reflexivity.
    + apply run_Raise. vm_compute. reflexivity.
  - by exists per_document, tail.
Defined.

End MoreExamples.
